(** * HealthCarer appointment catalogue over a key-value store

    A shallow embedding of [HealthCarerDynamoDB] (dynamodb-client.ts), of the
    REST route [/api/book] (api-server.ts) and of the [book_appointment] tool
    handler (server.ts), together with the properties of the slot state
    machine, the catalogue generator and the query planner.

    The DynamoDB table is a finite map from the composite key
    [(carer_id, date_time_slot)] to the stored item.  Every command sent
    through the document client is one atomic step on that map; a command may
    also be refused by the store itself (network failure, throttling, ...),
    which is represented by an explicit fault argument of each [send]. *)

From Stdlib Require Import ZArith Ascii String DecimalString.
From stdpp Require Import gmap strings list fin_maps sorting.

Local Open Scope string_scope.
Local Open Scope list_scope.
Local Open Scope stdpp_scope.

(** ** types.ts *)

Inductive Availability := Free | Booked.

#[global] Instance Availability_eq_dec : EqDecision Availability.
Proof. solve_decision. Defined.

Record TimeSlot := {
  carer_id : string;
  date_time_slot : string;
  availability : Availability;
  booking_person_name : option string;
  date : string;
  time_slot : string
}.

#[global] Instance TimeSlot_eq_dec : EqDecision TimeSlot.
Proof. solve_decision. Defined.

Record BookingRequest := {
  req_carer_id : string;
  req_date : string;
  req_time_slot : string;
  req_person_name : string
}.

(** An optional field of a JS object: [None] is [undefined]. *)
Record AvailabilityQuery := {
  q_carer_id : option string;
  q_date : option string
}.

(** ** JavaScript strings and numbers used by the generator *)

Module Js.

(** [n.toString()] for a non-negative integer. *)
Definition toString (n : nat) : string :=
  NilZero.string_of_uint (Nat.to_uint n).

Fixpoint repeat_string (n : nat) (s : string) : string :=
  match n with
  | O => ""
  | S n' => s +:+ repeat_string n' s
  end.

Fixpoint take (n : nat) (s : string) : string :=
  match n, s with
  | S n', String c s' => String c (take n' s')
  | _, _ => ""
  end.

(** [s.padStart(targetLength, padString)]: the pad string is repeated and
    truncated to fill the missing length; a string already long enough, or
    an empty pad string, leaves [s] as it is. *)
Definition padStart (targetLength : nat) (padString : string) (s : string) : string :=
  let len := String.length s in
  if (targetLength <=? len)%nat then s
  else if String.eqb padString "" then s
  else
    let fillLen := (targetLength - len)%nat in
    take fillLen (repeat_string fillLen padString) +:+ s.

(** Truthiness of an optional string: [undefined] and [""] are falsy. *)
Definition truthy (o : option string) : bool :=
  match o with
  | Some s => negb (String.eqb s "")
  | None => false
  end.

End Js.

(** ** generateTimeSlots *)

(** [`${hour.toString().padStart(2, '0')}${minute.toString().padStart(2, '0')}`] *)
Definition timeString (hour minute : nat) : string :=
  Js.padStart 2 "0" (Js.toString hour) +:+ Js.padStart 2 "0" (Js.toString minute).

(** [for (let minute = 0; minute < 60; minute += 30) slots.push(timeString)].
    The fuel bounds the number of iterations of the loop. *)
Fixpoint minute_loop (fuel : nat) (hour minute : nat) (slots : list string) : list string :=
  match fuel with
  | O => slots
  | S fuel' =>
      if (minute <? 60)%nat
      then minute_loop fuel' hour (minute + 30) (slots ++ [timeString hour minute])
      else slots
  end.

(** [for (let hour = 9; hour <= 15; hour++) { inner loop }]. *)
Fixpoint hour_loop (fuel : nat) (hour : nat) (slots : list string) : list string :=
  match fuel with
  | O => slots
  | S fuel' =>
      if (hour <=? 15)%nat
      then hour_loop fuel' (S hour) (minute_loop 60 hour 0 slots)
      else slots
  end.

Definition generateTimeSlots : list string := hour_loop 16 9 [].

(** The order of JS string comparison on these ASCII strings. *)
Definition string_lt (a b : string) : Prop := String.ltb a b = true.

#[global] Instance string_lt_dec a b : Decision (string_lt a b).
Proof. unfold string_lt. apply _. Defined.

(** The time of day in minutes that an [HHMM] string denotes. *)
Definition digit_val (c : ascii) : nat := (nat_of_ascii c - 48)%nat.

Definition minutes_of_HHMM (s : string) : option nat :=
  match s with
  | String h1 (String h2 (String m1 (String m2 EmptyString))) =>
      Some ((digit_val h1 * 10 + digit_val h2) * 60 + digit_val m1 * 10 + digit_val m2)%nat
  | _ => None
  end.

(** ** The DynamoDB document client *)

(** What a rejected [send] carries. The handlers only read [error.name] and
    [error.message]. *)
Record JsError := {
  err_name : string;
  err_message : string
}.

Inductive Promise (A : Type) :=
  | Resolved (a : A)
  | Rejected (e : JsError).

Arguments Resolved {A} a.
Arguments Rejected {A} e.

(** [p.catch(handler)] *)
Definition catch {A} (p : Promise A) (handler : JsError → Promise A) : Promise A :=
  match p with
  | Resolved a => Resolved a
  | Rejected e => handler e
  end.

(** [Promise.all(promises)]: rejects with the first rejection, otherwise
    resolves with all the values. *)
Fixpoint Promise_all {A} (promises : list (Promise A)) : Promise (list A) :=
  match promises with
  | [] => Resolved []
  | Resolved a :: rest =>
      match Promise_all rest with
      | Resolved l => Resolved (a :: l)
      | Rejected e => Rejected e
      end
  | Rejected e :: _ => Rejected e
  end.

(** The table [healthcarer-appointments]: partition key [carer_id], sort key
    [date_time_slot]. *)
Abbreviation Table := (gmap (string * string) TimeSlot).

Definition keyOf (item : TimeSlot) : string * string :=
  (carer_id item, date_time_slot item).

(** The error of the store when a [ConditionExpression] is false. *)
Definition ConditionalCheckFailedException : JsError :=
  {| err_name := "ConditionalCheckFailedException";
     err_message := "The conditional request failed" |}.

(** [PutCommand]. The only put of the client carries
    [ConditionExpression: 'attribute_not_exists(carer_id)'], which holds when
    no item is stored under the key of [Item]. *)
Record PutCommand := {
  put_Item : TimeSlot
}.

(** The clauses of the two update expressions of the client. *)
Inductive UpdateAction :=
  | SET_availability (v : Availability)
  | SET_booking_person_name (v : string)
  | REMOVE_booking_person_name.

(** [UpdateCommand]. [upd_Condition v] stands for
    [ConditionExpression: 'availability = :v']. *)
Record UpdateCommand := {
  upd_Key : string * string;
  upd_UpdateExpression : list UpdateAction;
  upd_Condition : Availability
}.

(** [QueryCommand]: [carer_id = :carer_id], with or without
    [begins_with(date_time_slot, :date)]. *)
Record QueryCommand := {
  qry_carer_id : string;
  qry_begins_with : option string
}.

Definition apply_action (item : TimeSlot) (a : UpdateAction) : TimeSlot :=
  match a with
  | SET_availability v =>
      {| carer_id := carer_id item; date_time_slot := date_time_slot item;
         availability := v; booking_person_name := booking_person_name item;
         date := date item; time_slot := time_slot item |}
  | SET_booking_person_name v =>
      {| carer_id := carer_id item; date_time_slot := date_time_slot item;
         availability := availability item; booking_person_name := Some v;
         date := date item; time_slot := time_slot item |}
  | REMOVE_booking_person_name =>
      {| carer_id := carer_id item; date_time_slot := date_time_slot item;
         availability := availability item; booking_person_name := None;
         date := date item; time_slot := time_slot item |}
  end.

Definition apply_update (actions : list UpdateAction) (item : TimeSlot) : TimeSlot :=
  foldl apply_action item actions.

(** The keys that the store accepts in a command: a partition key of 1 to
    2048 bytes and a sort key of 1 to 1024 bytes. *)
Definition accepted_key (k : string * string) : Prop :=
  (1 ≤ String.length k.1 ≤ 2048)%nat ∧ (1 ≤ String.length k.2 ≤ 1024)%nat.

#[global] Instance accepted_key_dec k : Decision (accepted_key k).
Proof. unfold accepted_key. apply _. Defined.

(** The error of the store when it refuses a command as invalid. *)
Definition ValidationException : JsError :=
  {| err_name := "ValidationException";
     err_message := "One or more parameter values are not valid" |}.

(** What a store that is reachable and not throttled answers to a command on
    key [k] before it looks at the table: it refuses a key it does not accept
    (an empty [carer_id], for one), and otherwise executes the command. *)
Definition key_fault (k : string * string) : option JsError :=
  if decide (accepted_key k) then None else Some ValidationException.

(** [docClient.send(new PutCommand(...))]. A command that the store refuses
    ([fault = Some e]) rejects with [e] and writes nothing. *)
Definition sendPut (fault : option JsError) (cmd : PutCommand) (t : Table)
  : Promise unit * Table :=
  match fault with
  | Some e => (Rejected e, t)
  | None =>
      match t !! keyOf (put_Item cmd) with
      | None => (Resolved tt, <[keyOf (put_Item cmd) := put_Item cmd]> t)
      | Some _ => (Rejected ConditionalCheckFailedException, t)
      end
  end.

(** [docClient.send(new UpdateCommand(...))]. The comparison
    [availability = :v] is false on an absent item, so an update never creates
    one. Test and write are one atomic step of the store.

    [fault] is the answer of the store when it does not execute the command:
    it is unreachable or throttled, or it refuses the command as invalid. The
    client sends the key as it receives it, and the store refuses a key that
    is not an [accepted_key] with a [ValidationException] ([key_fault]); so
    [fault = None] stands for a command that the store executes, and is the
    behaviour of the store only on an accepted key. *)
Definition sendUpdate (fault : option JsError) (cmd : UpdateCommand) (t : Table)
  : Promise unit * Table :=
  match fault with
  | Some e => (Rejected e, t)
  | None =>
      match t !! upd_Key cmd with
      | Some item =>
          if decide (availability item = upd_Condition cmd)
          then (Resolved tt,
                <[upd_Key cmd := apply_update (upd_UpdateExpression cmd) item]> t)
          else (Rejected ConditionalCheckFailedException, t)
      | None => (Rejected ConditionalCheckFailedException, t)
      end
  end.

(** All stored items. The order in which the store returns items is not
    part of the model, and one response holds all the items asked for (the
    client reads a single page of each answer). *)
Definition items (t : Table) : list TimeSlot := (map_to_list t).*2.

Definition key_condition (cmd : QueryCommand) (item : TimeSlot) : Prop :=
  carer_id item = qry_carer_id cmd ∧
  match qry_begins_with cmd with
  | Some p => String.prefix p (date_time_slot item) = true
  | None => True
  end.

#[global] Instance key_condition_dec cmd item : Decision (key_condition cmd item).
Proof. unfold key_condition. destruct (qry_begins_with cmd); apply _. Defined.

(** [docClient.send(new QueryCommand(...))], [response.Items]. *)
Definition sendQuery (fault : option JsError) (cmd : QueryCommand) (t : Table)
  : Promise (list TimeSlot) :=
  match fault with
  | Some e => Rejected e
  | None => Resolved (filter (key_condition cmd) (items t))
  end.

(** [docClient.send(new ScanCommand(...))], [response.Items]. *)
Definition sendScan (fault : option JsError) (t : Table) : Promise (list TimeSlot) :=
  match fault with
  | Some e => Rejected e
  | None => Resolved (items t)
  end.

(** ** HealthCarerDynamoDB *)

Record Result := {
  success : bool;
  message : string
}.

Definition carers : list string := ["Doctor1"; "Doctor2"; "doctor3"].
Definition dates : list string := ["20250728"; "20250729"; "20250730"].

(** The item built in the body of the three nested loops. *)
Definition newItem (carer date timeSlot : string) : TimeSlot :=
  {| carer_id := carer;
     date_time_slot := date +:+ "#" +:+ timeSlot;
     availability := Free;
     booking_person_name := None;
     date := date;
     time_slot := timeSlot |}.

(** The items in the order of the loops
    [for carer of carers, for date of dates, for timeSlot of timeSlots]. *)
Definition catalogue (carers dates timeSlots : list string) : list TimeSlot :=
  carer ← carers; date ← dates; timeSlot ← timeSlots; [newItem carer date timeSlot].

(** One iteration: [promises.push(send(put).catch(() => {}))]. The handler
    ignores its argument, whatever the error is. [faults] tells which puts the
    store refuses. *)
Definition seedOne (faults : string * string → option JsError)
  (st : list (Promise unit) * Table) (item : TimeSlot) : list (Promise unit) * Table :=
  let '(p, t') := sendPut (faults (keyOf item)) {| put_Item := item |} st.2 in
  (st.1 ++ [catch p (λ _, Resolved tt)], t').

Definition seed (faults : string * string → option JsError)
  (carers dates timeSlots : list string) (t : Table) : list (Promise unit) * Table :=
  foldl (seedOne faults) ([], t) (catalogue carers dates timeSlots).

Definition initializeTimeSlots (faults : string * string → option JsError) (t : Table)
  : Promise unit * Table :=
  let '(promises, t') := seed faults carers dates generateTimeSlots t in
  (match Promise_all promises with
   | Resolved _ => Resolved tt
   | Rejected e => Rejected e
   end, t').

Definition getAvailability (fault : option JsError) (query : AvailabilityQuery) (t : Table)
  : Promise (list TimeSlot) :=
  if Js.truthy (q_carer_id query) && Js.truthy (q_date query) then
    sendQuery fault {| qry_carer_id := default "" (q_carer_id query);
                       qry_begins_with := Some (default "" (q_date query)) |} t
  else if Js.truthy (q_carer_id query) then
    sendQuery fault {| qry_carer_id := default "" (q_carer_id query);
                       qry_begins_with := None |} t
  else
    sendScan fault t.

Definition SlotUnavailable : Result :=
  {| success := false; message := "Time slot is already booked or does not exist" |}.

Definition NoActiveBooking : Result :=
  {| success := false; message := "No booking found for this time slot" |}.

Definition bookAppointment (fault : option JsError) (booking : BookingRequest) (t : Table)
  : Promise Result * Table :=
  let dateTimeSlot := req_date booking +:+ "#" +:+ req_time_slot booking in
  let '(p, t') :=
    sendUpdate fault
      {| upd_Key := (req_carer_id booking, dateTimeSlot);
         upd_UpdateExpression :=
           [SET_availability Booked; SET_booking_person_name (req_person_name booking)];
         upd_Condition := Free |} t in
  (match p with
   | Resolved _ =>
       Resolved {| success := true; message := "Appointment booked successfully" |}
   | Rejected error =>
       if String.eqb (err_name error) "ConditionalCheckFailedException"
       then Resolved SlotUnavailable
       else Rejected error
   end, t').

Definition cancelAppointment (fault : option JsError) (carer_id date time_slot : string)
  (t : Table) : Promise Result * Table :=
  let dateTimeSlot := date +:+ "#" +:+ time_slot in
  let '(p, t') :=
    sendUpdate fault
      {| upd_Key := (carer_id, dateTimeSlot);
         upd_UpdateExpression := [SET_availability Free; REMOVE_booking_person_name];
         upd_Condition := Booked |} t in
  (match p with
   | Resolved _ =>
       Resolved {| success := true; message := "Appointment cancelled successfully" |}
   | Rejected error =>
       if String.eqb (err_name error) "ConditionalCheckFailedException"
       then Resolved NoActiveBooking
       else Rejected error
   end, t').

(** ** Histories of the table *)

(** The operations that write to the table, each with the faults the store
    answers to its commands. *)
Inductive Op :=
  | OpInitialize (faults : string * string → option JsError)
  | OpBook (fault : option JsError) (booking : BookingRequest)
  | OpCancel (fault : option JsError) (carer_id date time_slot : string).

Definition step (t : Table) (op : Op) : Table :=
  match op with
  | OpInitialize faults => (initializeTimeSlots faults t).2
  | OpBook fault booking => (bookAppointment fault booking t).2
  | OpCancel fault c d ts => (cancelAppointment fault c d ts t).2
  end.

(** The tables that the operations can produce from the empty table. *)
Inductive reachable : Table → Prop :=
  | reachable_empty : reachable ∅
  | reachable_step t op : reachable t → reachable (step t op).

(** The name is present exactly when the slot is booked. *)
Definition slot_inv (slot : TimeSlot) : Prop :=
  is_Some (booking_person_name slot) ↔ availability slot = Booked.

Definition table_inv (t : Table) : Prop :=
  ∀ k slot, t !! k = Some slot → slot_inv slot.

(** Concurrent [bookAppointment] calls. Each call sends one command, which
    the store executes atomically, so a concurrent execution is the calls taken
    in the order in which the store serialises their commands. *)
Fixpoint bookAll (calls : list (option JsError * BookingRequest)) (t : Table)
  : list (Promise Result) * Table :=
  match calls with
  | [] => ([], t)
  | (fault, booking) :: rest =>
      let '(r, t') := bookAppointment fault booking t in
      let '(rs, t'') := bookAll rest t' in
      (r :: rs, t'')
  end.

Definition succeeded (p : Promise Result) : bool :=
  match p with
  | Resolved r => success r
  | Rejected _ => false
  end.

Definition slot_unavailable (p : Promise Result) : bool :=
  match p with
  | Resolved r =>
      negb (success r) &&
      String.eqb (message r) "Time slot is already booked or does not exist"
  | Rejected _ => false
  end.

Definition count {A} (f : A → bool) (l : list A) : nat :=
  length (List.filter f l).

Definition slotKey (c d ts : string) : string * string := (c, d +:+ "#" +:+ ts).

Definition bookingKey (booking : BookingRequest) : string * string :=
  slotKey (req_carer_id booking) (req_date booking) (req_time_slot booking).

Definition booked_by (name : string) (slot : TimeSlot) : TimeSlot :=
  {| carer_id := carer_id slot; date_time_slot := date_time_slot slot;
     availability := Booked; booking_person_name := Some name;
     date := date slot; time_slot := time_slot slot |}.

Definition freed (slot : TimeSlot) : TimeSlot :=
  {| carer_id := carer_id slot; date_time_slot := date_time_slot slot;
     availability := Free; booking_person_name := None;
     date := date slot; time_slot := time_slot slot |}.

Definition no_faults : string * string → option JsError := λ _, None.

(** A booking under [name] followed by the cancellation of the same slot. *)
Definition bookThenCancel (c d ts : string) (t : Table) (name : string) : Table :=
  let booking := {| req_carer_id := c; req_date := d; req_time_slot := ts;
                    req_person_name := name |} in
  (cancelAppointment None c d ts (bookAppointment None booking t).2).2.

Definition same_slot (c d ts : string) (booking : BookingRequest) : Prop :=
  req_carer_id booking = c ∧ req_date booking = d ∧ req_time_slot booking = ts.

(** A fault of the store that is not a failed condition. *)
Definition throttled : JsError :=
  {| err_name := "ProvisionedThroughputExceededException";
     err_message := "The level of configured provisioned throughput for the table was exceeded" |}.

(** ** Transport adapters: request values *)

(** The values a parsed JSON request can hold in a field; [JsUndefined] is
    what reading a missing field gives. *)
Inductive JsValue :=
  | JsUndefined
  | JsNull
  | JsBoolean (b : bool)
  | JsNumber (n : Z)
  | JsString (s : string)
  | JsObject.

Definition typeof (v : JsValue) : string :=
  match v with
  | JsUndefined => "undefined"
  | JsNull => "object"
  | JsBoolean _ => "boolean"
  | JsNumber _ => "number"
  | JsString _ => "string"
  | JsObject => "object"
  end.

(** [!!v] *)
Definition truthy_value (v : JsValue) : bool :=
  match v with
  | JsUndefined | JsNull => false
  | JsBoolean b => b
  | JsNumber n => negb (n =? 0)%Z
  | JsString s => negb (String.eqb s "")
  | JsObject => true
  end.

(** [args[field]] on an object given by its own fields. *)
Definition get_field (args : gmap string JsValue) (field : string) : JsValue :=
  default JsUndefined (args !! field).

(** [field in args] *)
Definition has_field (args : gmap string JsValue) (field : string) : bool :=
  bool_decide (is_Some (args !! field)).

(** [v as string]: a cast without effect at run time; only applied below to
    values already tested to be strings. *)
Definition as_string (v : JsValue) : string :=
  match v with
  | JsString s => s
  | _ => ""
  end.

(** ** server.ts: the tool [book_appointment] *)

Inductive CallToolResult :=
  | ToolText (result : Result)          (* text: JSON.stringify(bookingResult) *)
  | ToolIsError (errorMessage : string). (* isError: true *)

(** [for (const field of requiredFields)
       if (!(field in args) || typeof args[field] !== 'string') throw ...]:
    the first field that makes the loop throw, if any. *)
Fixpoint first_invalid_field (requiredFields : list string) (args : gmap string JsValue)
  : option string :=
  match requiredFields with
  | [] => None
  | field :: rest =>
      if negb (has_field args field)
         || negb (String.eqb (typeof (get_field args field)) "string")
      then Some field
      else first_invalid_field rest args
  end.

(** [args = None] is a request without [arguments]. The handler catches what
    is thrown and answers with [isError]. *)
Definition callTool_book_appointment (fault : option JsError)
  (args : option (gmap string JsValue)) (t : Table) : CallToolResult * Table :=
  match args with
  | None => (ToolIsError "Invalid arguments for book_appointment", t)
  | Some args =>
      match first_invalid_field ["carer_id"; "date"; "time_slot"; "person_name"] args with
      | Some field => (ToolIsError ("Missing or invalid required field: " +:+ field), t)
      | None =>
          let booking :=
            {| req_carer_id := as_string (get_field args "carer_id");
               req_date := as_string (get_field args "date");
               req_time_slot := as_string (get_field args "time_slot");
               req_person_name := as_string (get_field args "person_name") |} in
          let '(p, t') := bookAppointment fault booking t in
          (match p with
           | Resolved bookingResult => ToolText bookingResult
           | Rejected error => ToolIsError (err_message error)
           end, t')
      end
  end.

(** ** api-server.ts: the route [POST /api/book] *)

Inductive ResponseBody :=
  | BodyResult (result : Result)
  | BodyError (error : string).

Record HttpResponse := {
  status : nat;
  body : ResponseBody
}.

(** [None]: some field holds a truthy value that is not a string; the route
    then hands [bookAppointment] a value outside [BookingRequest], which is not
    modelled. *)
Definition api_book (fault : option JsError) (req_body : gmap string JsValue) (t : Table)
  : option (HttpResponse * Table) :=
  let carer_id := get_field req_body "carer_id" in
  let date := get_field req_body "date" in
  let time_slot := get_field req_body "time_slot" in
  let person_name := get_field req_body "person_name" in
  if negb (truthy_value carer_id) || negb (truthy_value date)
     || negb (truthy_value time_slot) || negb (truthy_value person_name)
  then
    Some ({| status := 400;
             body := BodyError
               "Missing required fields: carer_id, date, time_slot, person_name" |}, t)
  else
    match carer_id, date, time_slot, person_name with
    | JsString c, JsString d, JsString ts, JsString name =>
        let booking := {| req_carer_id := c; req_date := d; req_time_slot := ts;
                          req_person_name := name |} in
        let '(p, t') := bookAppointment fault booking t in
        Some (match p with
              | Resolved result =>
                  if success result
                  then {| status := 200; body := BodyResult result |}
                  else {| status := 400; body := BodyResult result |}
              | Rejected error =>
                  {| status := 500; body := BodyError (err_message error) |}
              end, t')
    | _, _, _, _ => None
    end.

(** ** Example data *)

(** The catalogue {Carer1,Carer2} x {20250725,20250726} x {0900,0930}. *)
Definition example_catalogue : Table :=
  (seed no_faults ["Carer1"; "Carer2"] ["20250725"; "20250726"] ["0900"; "0930"] ∅).2.

(** The key attributes of a stored item are the key it is stored under. *)
Definition wf_table (t : Table) : Prop :=
  ∀ k slot, t !! k = Some slot → k = keyOf slot.

(** The reference catalogue, seeded on an empty table by an undisturbed run. *)
Definition initialized : Table := step ∅ (OpInitialize no_faults).

Definition booking_of (name : string) : BookingRequest :=
  {| req_carer_id := "Doctor1"; req_date := "20250728"; req_time_slot := "0900";
     req_person_name := name |}.

(** [initialized] after Alice has booked Doctor1 on 20250728 at 0900. *)
Definition alice_booked : Table := step initialized (OpBook None (booking_of "Alice")).

(** A booking request whose [carer_id] is the empty string. *)
Definition unnamed_carer_booking : BookingRequest :=
  {| req_carer_id := ""; req_date := "20250728"; req_time_slot := "0900";
     req_person_name := "Alice" |}.

Definition three_calls : list (option JsError * BookingRequest) :=
  [(None, booking_of "Alice"); (None, booking_of "Bob"); (None, booking_of "Carol")].

(** A [book_appointment] request whose [person_name] is the empty string. *)
Definition empty_name_args : gmap string JsValue :=
  list_to_map [("carer_id", JsString "Doctor1"); ("date", JsString "20250728");
               ("time_slot", JsString "0900"); ("person_name", JsString "")].

(** ** api-server.ts: the other routes *)

(** [DELETE /api/cancel]. [None]: some field holds a truthy value that is
    not a string, which [cancelAppointment] is not typed for; not modelled. *)
Definition api_cancel (fault : option JsError) (req_body : gmap string JsValue) (t : Table)
  : option (HttpResponse * Table) :=
  let carer_id := get_field req_body "carer_id" in
  let date := get_field req_body "date" in
  let time_slot := get_field req_body "time_slot" in
  if negb (truthy_value carer_id) || negb (truthy_value date)
     || negb (truthy_value time_slot)
  then
    Some ({| status := 400;
             body := BodyError "Missing required fields: carer_id, date, time_slot" |}, t)
  else
    match carer_id, date, time_slot with
    | JsString c, JsString d, JsString ts =>
        let '(p, t') := cancelAppointment fault c d ts t in
        Some (match p with
              | Resolved result =>
                  if success result
                  then {| status := 200; body := BodyResult result |}
                  else {| status := 400; body := BodyResult result |}
              | Rejected error =>
                  {| status := 500; body := BodyError (err_message error) |}
              end, t')
    | _, _, _ => None
    end.

(** [POST /api/initialize] *)
Definition api_initialize (faults : string * string → option JsError) (t : Table)
  : HttpResponse * Table :=
  let '(p, t') := initializeTimeSlots faults t in
  (match p with
   | Resolved _ =>
       {| status := 200;
          body := BodyResult {| success := true;
                                message := "Time slots initialized successfully" |} |}
   | Rejected error => {| status := 500; body := BodyError (err_message error) |}
   end, t').

Inductive AvailabilityBody :=
  | BodyData (data : list TimeSlot)
  | BodyFailure (error : string).

Record AvailabilityResponse := {
  av_status : nat;
  av_body : AvailabilityBody
}.

(** [GET /api/availability]. [req_query] holds the parameters of the query
    string, each given once as a plain string; a parameter that is not given
    reads as [undefined]. *)
Definition api_availability (fault : option JsError) (req_query : gmap string string)
  (t : Table) : AvailabilityResponse :=
  let query := {| q_carer_id := req_query !! "carer_id";
                  q_date := req_query !! "date" |} in
  match getAvailability fault query t with
  | Resolved availability => {| av_status := 200; av_body := BodyData availability |}
  | Rejected error => {| av_status := 500; av_body := BodyFailure (err_message error) |}
  end.

(** [GET /api/carers]: the [data] of the answer. *)
Definition api_carers : list string := ["Carer1"; "Carer2"; "Carer3"].

(** ** server.ts: the other tools *)

(** The tool [cancel_appointment]. *)
Definition callTool_cancel_appointment (fault : option JsError)
  (args : option (gmap string JsValue)) (t : Table) : CallToolResult * Table :=
  match args with
  | None => (ToolIsError "Invalid arguments for cancel_appointment", t)
  | Some args =>
      match first_invalid_field ["carer_id"; "date"; "time_slot"] args with
      | Some field => (ToolIsError ("Missing or invalid required field: " +:+ field), t)
      | None =>
          let '(p, t') :=
            cancelAppointment fault
              (as_string (get_field args "carer_id"))
              (as_string (get_field args "date"))
              (as_string (get_field args "time_slot")) t in
          (match p with
           | Resolved cancelResult => ToolText cancelResult
           | Rejected error => ToolIsError (err_message error)
           end, t')
      end
  end.

(** The tool [initialize_time_slots]: [inl text] is the text of the answer,
    [inr errorMessage] the answer with [isError]. *)
Definition callTool_initialize_time_slots (faults : string * string → option JsError)
  (t : Table) : (string + string) * Table :=
  let '(p, t') := initializeTimeSlots faults t in
  (match p with
   | Resolved _ => inl "Time slots initialized successfully"
   | Rejected error => inr (err_message error)
   end, t').

(** ** Vocabulary of the further properties *)

(** A slot of the catalogue that [initializeTimeSlots] seeds. *)
Definition catalogue_slot (slot : TimeSlot) : Prop :=
  carer_id slot ∈ carers
  ∧ date slot ∈ dates
  ∧ time_slot slot ∈ generateTimeSlots
  ∧ date_time_slot slot = date slot +:+ "#" +:+ time_slot slot.

(** What identifies a slot: the attributes that no update expression of the
    client names. *)
Definition same_identity (a b : TimeSlot) : Prop :=
  carer_id a = carer_id b ∧ date_time_slot a = date_time_slot b
  ∧ date a = date b ∧ time_slot a = time_slot b.

(** A required field of a tool request is valid when it is a string. *)
Definition string_field (args : gmap string JsValue) (field : string) : Prop :=
  ∃ s, args !! field = Some (JsString s).

Definition book_body (c d ts name : string) : gmap string JsValue :=
  list_to_map [("carer_id", JsString c); ("date", JsString d);
               ("time_slot", JsString ts); ("person_name", JsString name)].

Definition cancel_body (c d ts : string) : gmap string JsValue :=
  list_to_map [("carer_id", JsString c); ("date", JsString d);
               ("time_slot", JsString ts)].

Definition availability_query (c d : string) : gmap string string :=
  list_to_map [("carer_id", c); ("date", d)].

(** ** Further example data *)

Definition example_ops : list Op :=
  [OpBook None (booking_of "Bob");
   OpCancel None "Doctor1" "20250728" "0900";
   OpInitialize no_faults;
   OpBook None (booking_of "Carol")].

(** A booking request without [date] and with a number for [time_slot]. *)
Definition invalid_args : gmap string JsValue :=
  list_to_map [("carer_id", JsString "Doctor1"); ("time_slot", JsNumber 900);
               ("person_name", JsString "Alice")].

Definition contended_calls : list (option JsError * BookingRequest) :=
  [(Some throttled, booking_of "Alice")] ++ (None, booking_of "Bob")
    :: [(None, booking_of "Carol")].

(** ** The generator *)

(** The loops stop by their own tests: more fuel changes nothing. *)
Lemma minute_loop_fuel fuel hour slots :
  (2 <= fuel)%nat →
  minute_loop fuel hour 0 slots = slots ++ [timeString hour 0; timeString hour 30].
Proof.
  intros Hf. destruct fuel as [|[|fuel]]; [lia | lia |].
  cbn [minute_loop]. change (0 <? 60)%nat with true. cbn iota.
  change (0 + 30 <? 60)%nat with true. cbn iota.
  replace (minute_loop fuel hour (0 + 30 + 30) _)
    with ((slots ++ [timeString hour 0]) ++ [timeString hour (0 + 30)]).
  - by rewrite <- app_assoc.
  - destruct fuel; reflexivity.
Qed.

Lemma hour_loop_fuel fuel :
  (8 <= fuel)%nat → hour_loop fuel 9 [] = generateTimeSlots.
Proof.
  intros Hf. do 8 (destruct fuel as [|fuel]; [lia |]).
  destruct fuel; reflexivity.
Qed.

(** C7. The generator (hours 9 to 15, every 30 minutes) yields exactly 14
    time strings, all distinct, each four characters long, the first "0900"
    and the last "1530", strictly increasing both as strings and as times of
    day. *)
Theorem generateTimeSlots_correct :
  generateTimeSlots =
    ["0900"; "0930"; "1000"; "1030"; "1100"; "1130"; "1200";
     "1230"; "1300"; "1330"; "1400"; "1430"; "1500"; "1530"]
  ∧ length generateTimeSlots = 14%nat
  ∧ NoDup generateTimeSlots
  ∧ Forall (λ s, String.length s = 4%nat) generateTimeSlots
  ∧ head generateTimeSlots = Some "0900"
  ∧ last generateTimeSlots = Some "1530"
  ∧ StronglySorted string_lt generateTimeSlots
  ∧ (∃ ms, mapM minutes_of_HHMM generateTimeSlots = Some ms
           ∧ StronglySorted lt ms).
Proof.
  assert (Hgen : generateTimeSlots =
    ["0900"; "0930"; "1000"; "1030"; "1100"; "1130"; "1200";
     "1230"; "1300"; "1330"; "1400"; "1430"; "1500"; "1530"])
    by (vm_compute; reflexivity).
  rewrite Hgen. split_and!; try reflexivity.
  - apply (bool_decide_unpack _). vm_compute. reflexivity.
  - repeat constructor.
  - repeat (constructor; [| repeat (constructor; [vm_compute; reflexivity |]); constructor]).
    constructor.
  - eexists. split; [vm_compute; reflexivity |].
    repeat (constructor; [| repeat (constructor; [lia |]); constructor]).
    constructor.
Qed.

(** ** book and cancel, one call *)

Lemma bookAppointment_free t booking slot :
  t !! bookingKey booking = Some slot →
  availability slot = Free →
  bookAppointment None booking t =
    (Resolved {| success := true; message := "Appointment booked successfully" |},
     <[bookingKey booking := booked_by (req_person_name booking) slot]> t).
Proof.
  intros Hk Hfree. unfold bookAppointment, sendUpdate, bookingKey, slotKey in *.
  cbn. rewrite Hk. cbn. rewrite Hfree. reflexivity.
Qed.

Lemma bookAppointment_not_free t booking :
  (∀ slot, t !! bookingKey booking = Some slot → availability slot ≠ Free) →
  bookAppointment None booking t = (Resolved SlotUnavailable, t).
Proof.
  intros Hk. unfold bookAppointment, sendUpdate, bookingKey, slotKey in *. cbn.
  destruct (t !! _) as [slot|] eqn:E; [| reflexivity].
  destruct (decide _) as [Hf|Hf]; [| reflexivity].
  exfalso. by eapply Hk.
Qed.

Lemma bookAppointment_fault e booking t :
  bookAppointment (Some e) booking t =
    (if String.eqb (err_name e) "ConditionalCheckFailedException"
     then Resolved SlotUnavailable else Rejected e, t).
Proof. reflexivity. Qed.

Lemma cancelAppointment_booked t c d ts slot :
  t !! slotKey c d ts = Some slot →
  availability slot = Booked →
  cancelAppointment None c d ts t =
    (Resolved {| success := true; message := "Appointment cancelled successfully" |},
     <[slotKey c d ts := freed slot]> t).
Proof.
  intros Hk Hb. unfold cancelAppointment, sendUpdate, slotKey in *.
  cbn. rewrite Hk. cbn. rewrite Hb. reflexivity.
Qed.

Lemma cancelAppointment_not_booked t c d ts :
  (∀ slot, t !! slotKey c d ts = Some slot → availability slot ≠ Booked) →
  cancelAppointment None c d ts t = (Resolved NoActiveBooking, t).
Proof.
  intros Hk. unfold cancelAppointment, sendUpdate, slotKey in *. cbn.
  destruct (t !! _) as [slot|] eqn:E; [| reflexivity].
  destruct (decide _) as [Hf|Hf]; [| reflexivity].
  exfalso. by eapply Hk.
Qed.

Lemma cancelAppointment_fault e c d ts t :
  cancelAppointment (Some e) c d ts t =
    (if String.eqb (err_name e) "ConditionalCheckFailedException"
     then Resolved NoActiveBooking else Rejected e, t).
Proof. reflexivity. Qed.

Lemma key_fault_accepted k : accepted_key k → key_fault k = None.
Proof. intros Hk. unfold key_fault. by destruct (decide (accepted_key k)). Qed.

Lemma key_fault_refused k : ¬ accepted_key k → key_fault k = Some ValidationException.
Proof. intros Hk. unfold key_fault. by destruct (decide (accepted_key k)). Qed.

(** C2. When the store executes the write (the key is one it accepts) and
    the condition fails (the slot is absent, or not Free for a booking, or not
    Booked for a cancellation) the operation resolves with [success = false]
    and its own message, and the table is unchanged; an error of the store
    under any other name is rethrown to the caller, and so is the refusal of a
    key that the store does not accept. *)
Theorem precondition_failure_is_not_store_error :
  ∀ (t : Table) (booking : BookingRequest) (c d ts : string),
    (accepted_key (bookingKey booking) →
     (∀ slot, t !! bookingKey booking = Some slot → availability slot ≠ Free) →
       bookAppointment (key_fault (bookingKey booking)) booking t =
         (Resolved {| success := false;
                      message := "Time slot is already booked or does not exist" |}, t))
    ∧ (accepted_key (slotKey c d ts) →
       (∀ slot, t !! slotKey c d ts = Some slot → availability slot ≠ Booked) →
       cancelAppointment (key_fault (slotKey c d ts)) c d ts t =
         (Resolved {| success := false;
                      message := "No booking found for this time slot" |}, t))
    ∧ (∀ e, err_name e ≠ "ConditionalCheckFailedException" →
         bookAppointment (Some e) booking t = (Rejected e, t)
         ∧ cancelAppointment (Some e) c d ts t = (Rejected e, t))
    ∧ (¬ accepted_key (bookingKey booking) →
       bookAppointment (key_fault (bookingKey booking)) booking t
       = (Rejected ValidationException, t))
    ∧ (¬ accepted_key (slotKey c d ts) →
       cancelAppointment (key_fault (slotKey c d ts)) c d ts t
       = (Rejected ValidationException, t)).
Proof.
  intros t booking c d ts. split_and!.
  - intros Hkey. rewrite (key_fault_accepted _ Hkey). apply bookAppointment_not_free.
  - intros Hkey. rewrite (key_fault_accepted _ Hkey). apply cancelAppointment_not_booked.
  - intros e He. rewrite bookAppointment_fault, cancelAppointment_fault.
    apply String.eqb_neq in He. by rewrite He.
  - intros Hkey. rewrite (key_fault_refused _ Hkey). apply bookAppointment_fault.
  - intros Hkey. rewrite (key_fault_refused _ Hkey). apply cancelAppointment_fault.
Qed.

(** ** Seeding *)

Lemma seedOne_table faults st item :
  (seedOne faults st item).2 =
    match faults (keyOf item), st.2 !! keyOf item with
    | None, None => <[keyOf item := item]> st.2
    | _, _ => st.2
    end.
Proof.
  unfold seedOne, sendPut. cbn.
  destruct (faults _); [reflexivity |]. by destruct (st.2 !! _).
Qed.

Lemma seedOne_keeps faults st item k slot :
  st.2 !! k = Some slot → (seedOne faults st item).2 !! k = Some slot.
Proof.
  intros Hk. rewrite seedOne_table.
  destruct (faults _); [done |].
  destruct (st.2 !! keyOf item) eqn:E; [done |].
  rewrite lookup_insert_ne; [done |]. intros <-. congruence.
Qed.

Lemma seed_fold_keeps faults l st k slot :
  st.2 !! k = Some slot → (foldl (seedOne faults) st l).2 !! k = Some slot.
Proof.
  revert st. induction l as [|item l IH]; intros st Hk; [done |].
  cbn. apply IH. by apply seedOne_keeps.
Qed.

Lemma seed_fold_origin faults l st k slot :
  (foldl (seedOne faults) st l).2 !! k = Some slot →
  st.2 !! k = Some slot ∨ (st.2 !! k = None ∧ slot ∈ l ∧ k = keyOf slot).
Proof.
  revert st. induction l as [|item l IH]; intros st Hk; [by left |].
  cbn in Hk. apply IH in Hk. rewrite seedOne_table in Hk.
  destruct (faults (keyOf item)) eqn:Ef.
  { destruct Hk as [Hk|(Hn & Hin & ->)]; [by left |].
    right. split_and!; [done | by right | done]. }
  destruct (st.2 !! keyOf item) eqn:E.
  { destruct Hk as [Hk|(Hn & Hin & ->)]; [by left |].
    right. split_and!; [done | by right | done]. }
  destruct (decide (k = keyOf item)) as [->|Hne].
  - rewrite lookup_insert_eq in Hk. destruct Hk as [Hk|[Hk _]]; [| done].
    injection Hk as <-. right. split_and!; [done | by left | done].
  - rewrite lookup_insert_ne in Hk by done.
    destruct Hk as [Hk|(Hn & Hin & ->)]; [by left |].
    right. split_and!; [done | by right | done].
Qed.

Lemma catalogue_elem cs ds tss item :
  item ∈ catalogue cs ds tss ↔
  ∃ c d ts, item = newItem c d ts ∧ c ∈ cs ∧ d ∈ ds ∧ ts ∈ tss.
Proof.
  unfold catalogue. rewrite list_elem_of_bind. split.
  - intros (c & Hin & Hc). apply list_elem_of_bind in Hin as (d & Hin & Hd).
    apply list_elem_of_bind in Hin as (ts & Hin & Hts).
    apply list_elem_of_singleton in Hin. by exists c, d, ts.
  - intros (c & d & ts & -> & Hc & Hd & Hts). exists c. split; [| done].
    apply list_elem_of_bind. exists d. split; [| done].
    apply list_elem_of_bind. exists ts. split; [| done].
    by apply list_elem_of_singleton.
Qed.

Lemma initializeTimeSlots_table faults t :
  (initializeTimeSlots faults t).2 =
    (foldl (seedOne faults) ([], t) (catalogue carers dates generateTimeSlots)).2.
Proof.
  unfold initializeTimeSlots, seed. by destruct (foldl _ _ _).
Qed.

(** The puts of one run are issued together and reach the store in any
    order. They are on distinct keys, so the order does not matter for the
    table: the loop order is as good as any. *)
Lemma seed_fold_table_ext faults l st st' :
  st.2 = st'.2 →
  (foldl (seedOne faults) st l).2 = (foldl (seedOne faults) st' l).2.
Proof.
  revert st st'. induction l as [|item l IH]; intros st st' Heq; [done |].
  cbn [foldl]. apply IH. by rewrite !seedOne_table, Heq.
Qed.

Lemma seedOne_commute faults st (x y : TimeSlot) :
  keyOf x ≠ keyOf y →
  (seedOne faults (seedOne faults st x) y).2 = (seedOne faults (seedOne faults st y) x).2.
Proof.
  intros Hne. rewrite !seedOne_table.
  destruct (faults (keyOf x)) eqn:Ex, (faults (keyOf y)) eqn:Ey; try done.
  destruct (st.2 !! keyOf x) eqn:Hx, (st.2 !! keyOf y) eqn:Hy;
    rewrite ?lookup_insert_ne, ?Hx, ?Hy by done; try done.
  by apply insert_insert_ne.
Qed.

Lemma seed_fold_perm faults (l l' : list TimeSlot) :
  l ≡ₚ l' → NoDup (keyOf <$> l) →
  ∀ st, (foldl (seedOne faults) st l).2 = (foldl (seedOne faults) st l').2.
Proof.
  induction 1 as [|x l l' Hp IH|x y l|l l' l'' Hp1 IH1 Hp2 IH2]; intros Hnd st.
  - done.
  - cbn [foldl]. apply IH. rewrite fmap_cons in Hnd. by apply NoDup_cons in Hnd as [_ ?].
  - cbn [foldl]. apply seed_fold_table_ext, seedOne_commute.
    rewrite !fmap_cons in Hnd. apply NoDup_cons in Hnd as [Hnd _].
    intros Heq. apply Hnd. rewrite Heq. by left.
  - rewrite IH1 by done. apply IH2. by rewrite <- Hp1.
Qed.

Lemma catalogue_keys_NoDup :
  NoDup (keyOf <$> catalogue carers dates generateTimeSlots).
Proof. apply (bool_decide_unpack _). vm_compute. reflexivity. Qed.

(** ** The invariant of the slot records *)

Lemma slot_inv_booked_by name slot : slot_inv (booked_by name slot).
Proof. unfold slot_inv. cbn. split; [done | by eexists]. Qed.

Lemma slot_inv_freed slot : slot_inv (freed slot).
Proof. unfold slot_inv. cbn. split; [by intros [? ?] | done]. Qed.

Lemma slot_inv_newItem c d ts : slot_inv (newItem c d ts).
Proof. unfold slot_inv. cbn. split; [by intros [? ?] | done]. Qed.

Lemma table_inv_insert t k slot :
  table_inv t → slot_inv slot → table_inv (<[k := slot]> t).
Proof.
  intros Ht Hs k' slot'. destruct (decide (k = k')) as [->|Hne].
  - rewrite lookup_insert_eq. by intros [= <-].
  - rewrite lookup_insert_ne by done. apply Ht.
Qed.

Lemma bookAppointment_inv fault booking t :
  table_inv t → table_inv (bookAppointment fault booking t).2.
Proof.
  intros Ht. unfold bookAppointment, sendUpdate. destruct fault; [done |].
  cbn. destruct (t !! _) as [slot|]; [| done].
  destruct (decide _); [| done]. cbn.
  apply table_inv_insert; [done |]. apply (slot_inv_booked_by _ slot).
Qed.

Lemma cancelAppointment_inv fault c d ts t :
  table_inv t → table_inv (cancelAppointment fault c d ts t).2.
Proof.
  intros Ht. unfold cancelAppointment, sendUpdate. destruct fault; [done |].
  cbn. destruct (t !! _) as [slot|]; [| done].
  destruct (decide _); [| done]. cbn.
  apply table_inv_insert; [done |]. apply (slot_inv_freed slot).
Qed.

Lemma initializeTimeSlots_inv faults t :
  table_inv t → table_inv (initializeTimeSlots faults t).2.
Proof.
  intros Ht k slot Hk. rewrite initializeTimeSlots_table in Hk.
  apply seed_fold_origin in Hk as [Hk|(_ & Hin & _)]; [by eapply Ht |].
  apply catalogue_elem in Hin as (c & d & ts & -> & _).
  apply slot_inv_newItem.
Qed.

Lemma step_inv t op : table_inv t → table_inv (step t op).
Proof.
  destruct op; cbn.
  - apply initializeTimeSlots_inv.
  - apply bookAppointment_inv.
  - apply cancelAppointment_inv.
Qed.

Lemma reachable_inv t : reachable t → table_inv t.
Proof.
  induction 1 as [|t op _ IH]; [| by apply step_inv].
  intros k slot Hk. by rewrite lookup_empty in Hk.
Qed.

(** C5. In every table that the operations can reach, a slot has a booking
    name exactly when it is Booked, and every operation keeps it so:
    initialize creates slots Free and nameless, a successful book writes
    Booked together with the name, a successful cancel writes Free and
    removes the name. *)
Theorem name_present_iff_booked :
  (∀ t, reachable t → table_inv t)
  ∧ (∀ t op, table_inv t → table_inv (step t op))
  ∧ (∀ faults (t : Table) k slot,
       t !! k = None → (initializeTimeSlots faults t).2 !! k = Some slot →
       availability slot = Free ∧ booking_person_name slot = None)
  ∧ (∀ (t : Table) booking slot,
       t !! bookingKey booking = Some slot → availability slot = Free →
       ∃ slot', (bookAppointment None booking t).2 !! bookingKey booking = Some slot'
                ∧ availability slot' = Booked
                ∧ booking_person_name slot' = Some (req_person_name booking))
  ∧ (∀ (t : Table) c d ts slot,
       t !! slotKey c d ts = Some slot → availability slot = Booked →
       ∃ slot', (cancelAppointment None c d ts t).2 !! slotKey c d ts = Some slot'
                ∧ availability slot' = Free
                ∧ booking_person_name slot' = None).
Proof.
  split_and!.
  - apply reachable_inv.
  - apply step_inv.
  - intros faults t k slot Hn Hk. rewrite initializeTimeSlots_table in Hk.
    apply seed_fold_origin in Hk as [Hk|(_ & Hin & _)]; [cbn in Hk; congruence |].
    by apply catalogue_elem in Hin as (c & d & ts & -> & _).
  - intros t booking slot Hk Hf. rewrite (bookAppointment_free _ _ _ Hk Hf).
    eexists. cbn. by rewrite lookup_insert_eq.
  - intros t c d ts slot Hk Hb. rewrite (cancelAppointment_booked _ _ _ _ _ Hk Hb).
    eexists. cbn. by rewrite lookup_insert_eq.
Qed.

(** ** Booking then cancelling *)

Lemma freed_booked_by name slot :
  availability slot = Free → booking_person_name slot = None →
  freed (booked_by name slot) = slot.
Proof. destruct slot; cbn; intros -> ->; reflexivity. Qed.

Lemma bookThenCancel_id (t : Table) c d ts slot name :
  t !! slotKey c d ts = Some slot →
  availability slot = Free → booking_person_name slot = None →
  bookThenCancel c d ts t name = t.
Proof.
  intros Hk Hf Hn. unfold bookThenCancel.
  set (booking := {| req_carer_id := c; req_date := d; req_time_slot := ts;
                     req_person_name := name |}).
  assert (Hkey : bookingKey booking = slotKey c d ts) by reflexivity.
  rewrite (bookAppointment_free t booking slot) by (by rewrite ?Hkey).
  cbn [snd]. rewrite Hkey.
  rewrite (cancelAppointment_booked _ c d ts (booked_by name slot))
    by (by rewrite ?lookup_insert_eq).
  cbn [snd]. rewrite insert_insert_eq, freed_booked_by by done.
  by apply insert_id.
Qed.

(** C6. On a table that satisfies the invariant of the slot records, booking
    a Free slot under any name and then cancelling it succeeds twice and gives
    back the table as it was, the slot Free and nameless again; so does any
    sequence of such cycles under different names. *)
Theorem book_cancel_round_trip :
  ∀ (t : Table) (c d ts : string) (slot : TimeSlot),
    table_inv t →
    t !! slotKey c d ts = Some slot →
    availability slot = Free →
    (∀ name,
       let booking := {| req_carer_id := c; req_date := d; req_time_slot := ts;
                         req_person_name := name |} in
       let booked := bookAppointment None booking t in
       let cancelled := cancelAppointment None c d ts booked.2 in
       succeeded booked.1 = true
       ∧ booked.2 !! slotKey c d ts = Some (booked_by name slot)
       ∧ succeeded cancelled.1 = true
       ∧ cancelled.2 !! slotKey c d ts = Some slot
       ∧ cancelled.2 = t)
    ∧ availability slot = Free ∧ booking_person_name slot = None
    ∧ (∀ names, foldl (bookThenCancel c d ts) t names = t).
Proof.
  intros t c d ts slot Hinv Hk Hf.
  assert (Hn : booking_person_name slot = None).
  { destruct (booking_person_name slot) eqn:E; [| done].
    pose proof (proj1 (Hinv _ _ Hk)) as H. rewrite E in H.
    specialize (H (ltac:(by eexists))). congruence. }
  split_and!; [| done | done |].
  - intros name booking booked cancelled.
    assert (Hkey : bookingKey booking = slotKey c d ts) by reflexivity.
    assert (Hb : booked = (Resolved {| success := true;
                                       message := "Appointment booked successfully" |},
                           <[slotKey c d ts := booked_by name slot]> t)).
    { unfold booked. rewrite (bookAppointment_free t booking slot) by (by rewrite ?Hkey).
      by rewrite Hkey. }
    assert (Hc : cancelled.2 = t).
    { apply (bookThenCancel_id t c d ts slot name); done. }
    split_and!.
    + by rewrite Hb.
    + rewrite Hb. cbn. by rewrite lookup_insert_eq.
    + unfold cancelled. rewrite Hb. cbn [snd].
      by rewrite (cancelAppointment_booked _ c d ts (booked_by name slot))
        by (by rewrite ?lookup_insert_eq).
    + by rewrite Hc.
    + done.
  - intros names. induction names as [|name names IH]; [done |].
    cbn. by rewrite (bookThenCancel_id t c d ts slot name).
Qed.

(** ** Concurrent bookings of one slot *)

Lemma bookAll_cons fault booking rest t :
  bookAll ((fault, booking) :: rest) t =
    ((bookAppointment fault booking t).1 ::
       (bookAll rest (bookAppointment fault booking t).2).1,
     (bookAll rest (bookAppointment fault booking t).2).2).
Proof.
  cbn [bookAll]. destruct (bookAppointment fault booking t) as [r t'].
  cbn [fst snd]. by destruct (bookAll rest t').
Qed.

Lemma same_slot_key c d ts booking :
  same_slot c d ts booking → bookingKey booking = slotKey c d ts.
Proof. by intros (<- & <- & <-). Qed.

Lemma bookAppointment_fault_outcome e booking t :
  succeeded (bookAppointment (Some e) booking t).1 = false
  ∧ (bookAppointment (Some e) booking t).2 = t.
Proof.
  rewrite bookAppointment_fault. cbn. split; [| done].
  by destruct (String.eqb _ _).
Qed.

(** Once the slot is not Free, no booking of it succeeds. *)
Lemma bookAll_not_free (c d ts : string)
  (calls : list (option JsError * BookingRequest)) (t : Table) :
  Forall (λ call, same_slot c d ts call.2) calls →
  (∀ slot, t !! slotKey c d ts = Some slot → availability slot ≠ Free) →
  count succeeded (bookAll calls t).1 = 0%nat
  ∧ (Forall (λ call, call.1 = None) calls →
     count slot_unavailable (bookAll calls t).1 = length calls)
  ∧ (bookAll calls t).2 = t.
Proof.
  intros Hsame Hnf. induction Hsame as [|[fault booking] calls Hs _ IH].
  { by cbn. }
  rewrite bookAll_cons. cbn [fst snd] in *.
  assert (Ht : (bookAppointment fault booking t).2 = t).
  { destruct fault as [e|]; [apply bookAppointment_fault_outcome |].
    rewrite bookAppointment_not_free; [done |].
    by rewrite (same_slot_key c d ts). }
  rewrite Ht. destruct IH as (IH1 & IH2 & IH3). split_and!.
  - unfold count in *. cbn [List.filter].
    replace (succeeded (bookAppointment fault booking t).1) with false; [done |].
    destruct fault as [e|].
    + symmetry. apply bookAppointment_fault_outcome.
    + rewrite bookAppointment_not_free; [done |].
      by rewrite (same_slot_key c d ts).
  - intros Hno. apply Forall_cons in Hno as [Hf Hno]. cbn in Hf. subst fault.
    rewrite bookAppointment_not_free by (by rewrite (same_slot_key c d ts)).
    unfold count in *. cbn. f_equal. by apply IH2.
  - done.
Qed.

(** C1. N bookings of one slot that is Free, executed one atomic conditional
    write each in whatever order the store takes them: at most one succeeds,
    whatever faults the store answers; and when the store refuses none of the
    writes and there is at least one call, exactly one succeeds and the N-1
    others get the slot-unavailable result. *)
Theorem at_most_one_booking :
  ∀ (t : Table) (c d ts : string) (slot : TimeSlot)
    (calls : list (option JsError * BookingRequest)),
    t !! slotKey c d ts = Some slot →
    availability slot = Free →
    Forall (λ call, same_slot c d ts call.2) calls →
    (count succeeded (bookAll calls t).1 ≤ 1)%nat
    ∧ (calls ≠ [] → Forall (λ call, call.1 = None) calls →
       count succeeded (bookAll calls t).1 = 1%nat
       ∧ count slot_unavailable (bookAll calls t).1 = (length calls - 1)%nat).
Proof.
  intros t c d ts slot calls Hk Hf Hsame.
  induction Hsame as [|[fault booking] calls Hs Hsame IH].
  { split; [cbn; lia | done]. }
  cbn [snd] in Hs. rewrite bookAll_cons. cbn [fst].
  pose proof (same_slot_key _ _ _ _ Hs) as Hkey.
  destruct fault as [e|].
  - destruct (bookAppointment_fault_outcome e booking t) as [Hr Ht].
    rewrite Ht. unfold count in *. cbn [List.filter]. rewrite Hr.
    split; [apply IH |].
    intros _ Hno. apply Forall_cons in Hno as [Hno _]. done.
  - rewrite (bookAppointment_free t booking slot) by (by rewrite ?Hkey).
    cbn [fst snd]. rewrite Hkey.
    destruct (bookAll_not_free c d ts calls
                (<[slotKey c d ts := booked_by (req_person_name booking) slot]> t) Hsame)
      as (H0 & Hu & _).
    { intros slot'. rewrite lookup_insert_eq. by intros [= <-]. }
    unfold count in *. cbn [List.filter succeeded success slot_unavailable negb andb].
    cbn [length]. rewrite H0. split; [lia |].
    intros _ Hno. apply Forall_cons in Hno as [_ Hno].
    split; [done |]. rewrite (Hu Hno). lia.
Qed.

(** ** Initialize, run again *)

Lemma seed_fold_noop faults l st :
  Forall (λ item, is_Some (st.2 !! keyOf item)) l →
  (foldl (seedOne faults) st l).2 = st.2.
Proof.
  revert st. induction l as [|item l IH]; intros st Hall; [done |].
  apply Forall_cons in Hall as [[slot Hk] Hall]. cbn [foldl].
  assert (Hst : (seedOne faults st item).2 = st.2).
  { rewrite seedOne_table, Hk. by destruct (faults _). }
  rewrite IH; [done |]. by rewrite Hst.
Qed.

Lemma seed_fold_covers l st :
  Forall (λ item, is_Some ((foldl (seedOne no_faults) st l).2 !! keyOf item)) l.
Proof.
  revert st. induction l as [|item l IH]; intros st; [constructor |].
  cbn [foldl]. constructor; [| apply IH].
  assert (Hone : is_Some ((seedOne no_faults st item).2 !! keyOf item)).
  { rewrite seedOne_table. unfold no_faults.
    destruct (st.2 !! keyOf item) eqn:E; [by rewrite E |].
    by rewrite lookup_insert_eq. }
  destruct Hone as [slot Hone]. exists slot. by apply seed_fold_keeps.
Qed.

(** C3. A run of initialize changes no attribute of a slot that exists
    before it, whatever the store answers; after a run in which the store
    refused nothing, one more run leaves the whole table as it is. *)
Theorem initialize_idempotent :
  ∀ (t : Table) (faults : string * string → option JsError),
    (∀ k slot, t !! k = Some slot →
               (initializeTimeSlots faults t).2 !! k = Some slot)
    ∧ (initializeTimeSlots faults (initializeTimeSlots no_faults t).2).2
      = (initializeTimeSlots no_faults t).2.
Proof.
  intros t faults. split.
  - intros k slot Hk. rewrite initializeTimeSlots_table.
    apply seed_fold_keeps. exact Hk.
  - pose proof (seed_fold_covers (catalogue carers dates generateTimeSlots) ([], t))
      as Hcov.
    rewrite <- initializeTimeSlots_table in Hcov.
    generalize dependent (initializeTimeSlots no_faults t).2. intros t1 Hcov.
    rewrite (initializeTimeSlots_table faults).
    exact (seed_fold_noop faults _ ([], t1) Hcov).
Qed.

(** ** Initialize and the errors of the store *)

Lemma seed_fold_promises faults l st :
  Forall (λ p, p = Resolved tt) st.1 →
  Forall (λ p, p = Resolved tt) (foldl (seedOne faults) st l).1.
Proof.
  revert st. induction l as [|item l IH]; intros st Hst; [done |].
  cbn [foldl]. apply IH. unfold seedOne.
  destruct (sendPut _ _ _) as [p t']. cbn [fst].
  apply Forall_app. split; [done |]. constructor; [| constructor].
  by destruct p as [[]|e].
Qed.

Lemma Promise_all_resolved (promises : list (Promise unit)) :
  Forall (λ p, p = Resolved tt) promises →
  ∃ l, Promise_all promises = Resolved l.
Proof.
  induction 1 as [|p promises -> _ [l IH]]; [by eexists |].
  cbn. rewrite IH. by eexists.
Qed.

(** Whatever the store answers to the puts, initialize resolves. *)
Lemma initializeTimeSlots_never_rejects faults t :
  (initializeTimeSlots faults t).1 = Resolved tt.
Proof.
  unfold initializeTimeSlots, seed.
  pose proof (seed_fold_promises faults (catalogue carers dates generateTimeSlots)
                ([], t) (Forall_nil_2 _)) as Hall.
  destruct (foldl _ _ _) as [promises t']. cbn [fst] in *.
  by destruct (Promise_all_resolved promises Hall) as [l ->].
Qed.

(** C4. When the store is throttled and refuses every put of initialize with
    an error that is not the failed condition, initialize still resolves, as
    if it had succeeded, and the table stays empty: the error is not
    surfaced. *)
Theorem initialize_swallows_store_errors :
  err_name throttled ≠ "ConditionalCheckFailedException"
  ∧ initializeTimeSlots (λ _, Some throttled) ∅ = (Resolved tt, ∅).
Proof.
  split; [done |]. vm_compute. reflexivity.
Qed.

(** ** The query planner *)

Lemma elem_of_items (t : Table) (slot : TimeSlot) :
  slot ∈ items t ↔ ∃ k, t !! k = Some slot.
Proof.
  unfold items. rewrite list_elem_of_fmap. split.
  - intros ([k s] & -> & Hin). exists k. by apply elem_of_map_to_list in Hin.
  - intros [k Hk]. exists (k, slot). split; [done |]. by apply elem_of_map_to_list.
Qed.

Lemma elem_of_items_wf (t : Table) (slot : TimeSlot) :
  wf_table t → slot ∈ items t ↔ t !! keyOf slot = Some slot.
Proof.
  intros Hwf. rewrite elem_of_items. split; [| by eexists].
  intros [k Hk]. by rewrite <- (Hwf _ _ Hk).
Qed.

Lemma NoDup_items (t : Table) : wf_table t → NoDup (items t).
Proof.
  intros Hwf. unfold items. apply NoDup_fmap_2_strong; [| apply NoDup_map_to_list].
  intros [k1 s1] [k2 s2] H1 H2. cbn. intros <-.
  apply elem_of_map_to_list in H1, H2.
  by rewrite (Hwf _ _ H1), (Hwf _ _ H2).
Qed.

Lemma wf_table_insert (t : Table) (slot : TimeSlot) :
  wf_table t → wf_table (<[keyOf slot := slot]> t).
Proof.
  intros Hwf k s. destruct (decide (keyOf slot = k)) as [<-|Hne].
  - rewrite lookup_insert_eq. by intros [= <-].
  - rewrite lookup_insert_ne by done. apply Hwf.
Qed.

Lemma wf_seed_fold faults l st :
  wf_table st.2 → wf_table (foldl (seedOne faults) st l).2.
Proof.
  revert st. induction l as [|item l IH]; intros st Hwf; [done |].
  cbn [foldl]. apply IH. rewrite seedOne_table.
  destruct (faults _); [done |]. destruct (st.2 !! _); [done |].
  by apply wf_table_insert.
Qed.

Lemma wf_sendUpdate (fault : option JsError) (cmd : UpdateCommand) (t : Table) :
  (∀ slot, keyOf (apply_update (upd_UpdateExpression cmd) slot) = keyOf slot) →
  wf_table t → wf_table (sendUpdate fault cmd t).2.
Proof.
  intros Hkey Hwf. unfold sendUpdate. destruct fault; [done |].
  destruct (t !! upd_Key cmd) as [slot|] eqn:E; [| done].
  destruct (decide _); [| done]. cbn [snd].
  rewrite (Hwf _ _ E), <- (Hkey slot). by apply wf_table_insert.
Qed.

(** Every table that the operations can reach stores each item under its
    own key. *)
Lemma reachable_wf t : reachable t → wf_table t.
Proof.
  induction 1 as [|t op _ IH].
  { intros k slot Hk. by rewrite lookup_empty in Hk. }
  destruct op as [faults|fault booking|fault c d ts]; cbn [step].
  - rewrite initializeTimeSlots_table. by apply wf_seed_fold.
  - unfold bookAppointment.
    match goal with |- context [sendUpdate fault ?cmd t] =>
      pose proof (wf_sendUpdate fault cmd t (λ _, eq_refl) IH) as Hw;
      destruct (sendUpdate fault cmd t) end.
    exact Hw.
  - unfold cancelAppointment.
    match goal with |- context [sendUpdate fault ?cmd t] =>
      pose proof (wf_sendUpdate fault cmd t (λ _, eq_refl) IH) as Hw;
      destruct (sendUpdate fault cmd t) end.
    exact Hw.
Qed.

Lemma truthy_Some s : s ≠ "" → Js.truthy (Some s) = true.
Proof. intros Hs. cbn. apply String.eqb_neq in Hs. by rewrite Hs. Qed.

Lemma getAvailability_scan fault oc od t :
  Js.truthy oc = false →
  getAvailability fault {| q_carer_id := oc; q_date := od |} t = sendScan fault t.
Proof. intros Hc. unfold getAvailability. cbn. by rewrite Hc. Qed.

(** C8. On a table that stores each item under its own key, and when the
    store answers: given a carer and a date (both non-empty) the result is
    exactly the stored slots of that carer whose sort key starts with the
    date; given only a carer, exactly the stored slots of that carer; given
    neither, exactly the stored slots; each slot once. On the example
    catalogue the three queries return 2, 4 and 8 slots. *)
Theorem getAvailability_filters :
  (∀ (t : Table) (c d : string),
     wf_table t → c ≠ "" → d ≠ "" →
     ∃ result,
       getAvailability None {| q_carer_id := Some c; q_date := Some d |} t = Resolved result
       ∧ NoDup result
       ∧ ∀ slot, slot ∈ result ↔
                 t !! keyOf slot = Some slot ∧ carer_id slot = c
                 ∧ String.prefix d (date_time_slot slot) = true)
  ∧ (∀ (t : Table) (c : string) (od : option string),
       wf_table t → c ≠ "" → Js.truthy od = false →
       ∃ result,
         getAvailability None {| q_carer_id := Some c; q_date := od |} t = Resolved result
         ∧ NoDup result
         ∧ ∀ slot, slot ∈ result ↔ t !! keyOf slot = Some slot ∧ carer_id slot = c)
  ∧ (∀ (t : Table) (oc od : option string),
       wf_table t → Js.truthy oc = false → Js.truthy od = false →
       ∃ result,
         getAvailability None {| q_carer_id := oc; q_date := od |} t = Resolved result
         ∧ NoDup result
         ∧ ∀ slot, slot ∈ result ↔ t !! keyOf slot = Some slot)
  ∧ (∃ both carer all,
       getAvailability None {| q_carer_id := Some "Carer1"; q_date := Some "20250725" |}
         example_catalogue = Resolved both
       ∧ getAvailability None {| q_carer_id := Some "Carer1"; q_date := None |}
           example_catalogue = Resolved carer
       ∧ getAvailability None {| q_carer_id := None; q_date := None |}
           example_catalogue = Resolved all
       ∧ length both = 2%nat ∧ length carer = 4%nat ∧ length all = 8%nat
       ∧ both ≡ₚ catalogue ["Carer1"] ["20250725"] ["0900"; "0930"]
       ∧ carer ≡ₚ catalogue ["Carer1"] ["20250725"; "20250726"] ["0900"; "0930"]
       ∧ all ≡ₚ catalogue ["Carer1"; "Carer2"] ["20250725"; "20250726"] ["0900"; "0930"]).
Proof.
  split_and!.
  - intros t c d Hwf Hc Hd. eexists. split_and!.
    + unfold getAvailability. cbn [q_carer_id q_date].
      rewrite !truthy_Some by done. reflexivity.
    + apply NoDup_filter. by apply NoDup_items.
    + intros slot. rewrite list_elem_of_filter, elem_of_items_wf by done.
      unfold key_condition. cbn. tauto.
  - intros t c od Hwf Hc Hd. eexists. split_and!.
    + unfold getAvailability. cbn [q_carer_id q_date].
      rewrite truthy_Some, Hd by done. reflexivity.
    + apply NoDup_filter. by apply NoDup_items.
    + intros slot. rewrite list_elem_of_filter, elem_of_items_wf by done.
      unfold key_condition. cbn. tauto.
  - intros t oc od Hwf Hc Hd. eexists. split_and!.
    + by rewrite getAvailability_scan.
    + by apply NoDup_items.
    + intros slot. by rewrite elem_of_items_wf.
  - do 3 eexists. split_and!; [vm_compute; reflexivity .. | | |];
      apply (bool_decide_unpack _); vm_compute; reflexivity.
Qed.

(** C10. A query with a date but with no carer (absent or empty) takes the
    scan branch: the date is not used, and when the store answers the result
    is all the stored slots, of every carer and every date. *)
Theorem date_without_carer_scans_everything :
  ∀ (t : Table) (fault : option JsError) (oc : option string) (d : string),
    oc = None ∨ oc = Some "" →
    getAvailability fault {| q_carer_id := oc; q_date := Some d |} t = sendScan fault t
    ∧ getAvailability None {| q_carer_id := oc; q_date := Some d |} t = Resolved (items t)
    ∧ (∀ k slot, t !! k = Some slot → slot ∈ items t)
    ∧ (∀ d', getAvailability fault {| q_carer_id := oc; q_date := Some d |} t
             = getAvailability fault {| q_carer_id := oc; q_date := d' |} t).
Proof.
  intros t fault oc d Hoc.
  assert (Hc : Js.truthy oc = false) by (by destruct Hoc as [-> | ->]).
  split_and!.
  - by apply getAvailability_scan.
  - by rewrite getAvailability_scan.
  - intros k slot Hk. apply elem_of_items. by exists k.
  - intros d'. by rewrite !getAvailability_scan.
Qed.

(** ** Validation in the two adapters *)

Lemma api_book_rejects (fault : option JsError) (req_body : gmap string JsValue)
  (t : Table) (field : string) :
  field ∈ ["carer_id"; "date"; "time_slot"; "person_name"] →
  req_body !! field = None ∨ req_body !! field = Some (JsString "") →
  api_book fault req_body t =
    Some ({| status := 400;
             body := BodyError
               "Missing required fields: carer_id, date, time_slot, person_name" |}, t).
Proof.
  intros Hin Hfield.
  assert (Hfalsy : truthy_value (get_field req_body field) = false).
  { unfold get_field. by destruct Hfield as [-> | ->]. }
  unfold api_book.
  repeat (apply elem_of_cons in Hin as [-> | Hin]);
    [rewrite Hfalsy; cbn [negb orb]; rewrite ?orb_true_r; reflexivity .. |].
  by apply elem_of_nil in Hin.
Qed.

Lemma first_invalid_field_missing (fields : list string) (args : gmap string JsValue)
  (field : string) :
  field ∈ fields → args !! field = None →
  is_Some (first_invalid_field fields args).
Proof.
  intros Hin Hnone. induction fields as [|f fields IH]; [by apply elem_of_nil in Hin |].
  cbn [first_invalid_field]. destruct (negb (has_field args f) || _) eqn:E; [by eexists |].
  apply elem_of_cons in Hin as [-> | Hin]; [| by apply IH].
  unfold has_field in E. rewrite Hnone in E.
  rewrite bool_decide_eq_false_2 in E by (by intros [? ?]). done.
Qed.

(** The tool refuses a request in which a required field is missing, without
    a command to the store. *)
Lemma callTool_book_appointment_missing (fault : option JsError)
  (args : gmap string JsValue) (t : Table) (field : string) :
  field ∈ ["carer_id"; "date"; "time_slot"; "person_name"] →
  args !! field = None →
  ∃ f, callTool_book_appointment fault (Some args) t =
         (ToolIsError ("Missing or invalid required field: " +:+ f), t).
Proof.
  intros Hin Hnone. unfold callTool_book_appointment.
  destruct (first_invalid_field_missing _ args field Hin Hnone) as [f ->].
  by exists f.
Qed.

(** The tool forwards any request whose four fields are strings, empty or
    not, to [bookAppointment]. *)
Lemma callTool_book_appointment_strings (fault : option JsError)
  (args : gmap string JsValue) (t : Table) (c d ts name : string) :
  args !! "carer_id" = Some (JsString c) →
  args !! "date" = Some (JsString d) →
  args !! "time_slot" = Some (JsString ts) →
  args !! "person_name" = Some (JsString name) →
  let booking := {| req_carer_id := c; req_date := d; req_time_slot := ts;
                    req_person_name := name |} in
  callTool_book_appointment fault (Some args) t =
    (match (bookAppointment fault booking t).1 with
     | Resolved bookingResult => ToolText bookingResult
     | Rejected error => ToolIsError (err_message error)
     end, (bookAppointment fault booking t).2).
Proof.
  intros Hc Hd Hts Hn booking.
  unfold callTool_book_appointment, first_invalid_field, has_field, get_field.
  rewrite Hc, Hd, Hts, Hn. cbn [default typeof as_string].
  rewrite !bool_decide_eq_true_2 by (by eexists).
  change (typeof (JsString _)) with "string". unfold id.
  change (typeof (JsString _)) with "string".
  change ("string" =? "string")%string with true. cbn [negb orb as_string].
  fold booking. by destruct (bookAppointment fault booking t).
Qed.

(** C9. The tool [book_appointment], given a request whose [person_name] is
    the empty string, does not reject it: it sends the update, and the slot,
    Free before, is stored Booked under the empty name. The route
    [/api/book] answers the same request with 400 and leaves the table as it
    is. *)
Theorem book_appointment_tool_accepts_empty_name :
  initialized !! slotKey "Doctor1" "20250728" "0900"
    = Some (newItem "Doctor1" "20250728" "0900")
  ∧ callTool_book_appointment None (Some empty_name_args) initialized
    = (ToolText {| success := true; message := "Appointment booked successfully" |},
       <[slotKey "Doctor1" "20250728" "0900" :=
           booked_by "" (newItem "Doctor1" "20250728" "0900")]> initialized)
  ∧ api_book None empty_name_args initialized
    = Some ({| status := 400;
               body := BodyError
                 "Missing required fields: carer_id, date, time_slot, person_name" |},
            initialized).
Proof.
  assert (Hfree : initialized !! slotKey "Doctor1" "20250728" "0900"
                  = Some (newItem "Doctor1" "20250728" "0900"))
    by (vm_compute; reflexivity).
  split_and!.
  - exact Hfree.
  - rewrite (callTool_book_appointment_strings None empty_name_args initialized
               "Doctor1" "20250728" "0900" "") by (vm_compute; reflexivity).
    change {| req_carer_id := "Doctor1"; req_date := "20250728";
              req_time_slot := "0900"; req_person_name := "" |}
      with (booking_of "").
    rewrite (bookAppointment_free initialized (booking_of "")
               (newItem "Doctor1" "20250728" "0900") Hfree eq_refl).
    reflexivity.
  - apply (api_book_rejects None empty_name_args initialized "person_name").
    + rewrite !elem_of_cons. auto.
    + right. vm_compute. reflexivity.
Qed.

(** ** Instances on concrete tables *)

Lemma at_most_one_booking_witness :
  initialized !! slotKey "Doctor1" "20250728" "0900"
    = Some (newItem "Doctor1" "20250728" "0900")
  ∧ availability (newItem "Doctor1" "20250728" "0900") = Free
  ∧ Forall (λ call, same_slot "Doctor1" "20250728" "0900" call.2) three_calls
  ∧ three_calls ≠ []
  ∧ Forall (λ call, call.1 = None) three_calls
  ∧ (count succeeded (bookAll three_calls initialized).1 ≤ 1)%nat
  ∧ count succeeded (bookAll three_calls initialized).1 = 1%nat
  ∧ count slot_unavailable (bookAll three_calls initialized).1 = (length three_calls - 1)%nat.
Proof.
  assert (H1 : initialized !! slotKey "Doctor1" "20250728" "0900"
               = Some (newItem "Doctor1" "20250728" "0900"))
    by (vm_compute; reflexivity).
  assert (H2 : availability (newItem "Doctor1" "20250728" "0900") = Free) by reflexivity.
  assert (H3 : Forall (λ call, same_slot "Doctor1" "20250728" "0900" call.2) three_calls)
    by (repeat constructor).
  assert (H4 : three_calls ≠ []) by discriminate.
  assert (H5 : Forall (λ call, call.1 = None) three_calls) by (repeat constructor).
  destruct (at_most_one_booking initialized "Doctor1" "20250728" "0900" _ three_calls
              H1 H2 H3) as [Hle Hex].
  destruct (Hex H4 H5) as [Hone Hrest].
  split_and!; assumption.
Defined.

Lemma precondition_failure_is_not_store_error_witness :
  accepted_key (bookingKey (booking_of "Bob"))
  ∧ (∀ slot, alice_booked !! bookingKey (booking_of "Bob") = Some slot →
             availability slot ≠ Free)
  ∧ bookAppointment (key_fault (bookingKey (booking_of "Bob"))) (booking_of "Bob")
      alice_booked =
      (Resolved {| success := false;
                   message := "Time slot is already booked or does not exist" |},
       alice_booked)
  ∧ accepted_key (slotKey "Doctor1" "20250728" "0930")
  ∧ (∀ slot, alice_booked !! slotKey "Doctor1" "20250728" "0930" = Some slot →
             availability slot ≠ Booked)
  ∧ cancelAppointment (key_fault (slotKey "Doctor1" "20250728" "0930"))
      "Doctor1" "20250728" "0930" alice_booked =
      (Resolved {| success := false; message := "No booking found for this time slot" |},
       alice_booked)
  ∧ err_name throttled ≠ "ConditionalCheckFailedException"
  ∧ bookAppointment (Some throttled) (booking_of "Bob") alice_booked
    = (Rejected throttled, alice_booked)
  ∧ cancelAppointment (Some throttled) "Doctor1" "20250728" "0930" alice_booked
    = (Rejected throttled, alice_booked)
  ∧ ¬ accepted_key (bookingKey unnamed_carer_booking)
  ∧ bookAppointment (key_fault (bookingKey unnamed_carer_booking))
      unnamed_carer_booking alice_booked
    = (Rejected ValidationException, alice_booked)
  ∧ ¬ accepted_key (slotKey "" "20250728" "0900")
  ∧ cancelAppointment (key_fault (slotKey "" "20250728" "0900"))
      "" "20250728" "0900" alice_booked
    = (Rejected ValidationException, alice_booked).
Proof.
  assert (K1 : accepted_key (bookingKey (booking_of "Bob")))
    by (apply (bool_decide_unpack _); vm_compute; reflexivity).
  assert (H1 : ∀ slot, alice_booked !! bookingKey (booking_of "Bob") = Some slot →
                       availability slot ≠ Free).
  { intros slot H. vm_compute in H. injection H as <-. discriminate. }
  assert (K2 : accepted_key (slotKey "Doctor1" "20250728" "0930"))
    by (apply (bool_decide_unpack _); vm_compute; reflexivity).
  assert (H2 : ∀ slot, alice_booked !! slotKey "Doctor1" "20250728" "0930" = Some slot →
                       availability slot ≠ Booked).
  { intros slot H. vm_compute in H. injection H as <-. discriminate. }
  assert (H3 : err_name throttled ≠ "ConditionalCheckFailedException") by discriminate.
  assert (K3 : ¬ accepted_key (bookingKey unnamed_carer_booking))
    by (apply (bool_decide_unpack _); vm_compute; reflexivity).
  assert (K4 : ¬ accepted_key (slotKey "" "20250728" "0900"))
    by (apply (bool_decide_unpack _); vm_compute; reflexivity).
  destruct (precondition_failure_is_not_store_error alice_booked (booking_of "Bob")
              "Doctor1" "20250728" "0930") as (Hb & Hc & He & _ & _).
  destruct (precondition_failure_is_not_store_error alice_booked unnamed_carer_booking
              "" "20250728" "0900") as (_ & _ & _ & Hvb & Hvc).
  destruct (He throttled H3) as [Heb Hec].
  split; [exact K1 |]. split; [exact H1 |]. split; [exact (Hb K1 H1) |].
  split; [exact K2 |]. split; [exact H2 |]. split; [exact (Hc K2 H2) |].
  split; [exact H3 |]. split; [exact Heb |]. split; [exact Hec |].
  split; [exact K3 |]. split; [exact (Hvb K3) |].
  split; [exact K4 | exact (Hvc K4)].
Defined.

Lemma reachable_alice_booked : reachable alice_booked.
Proof.
  unfold alice_booked, initialized.
  apply reachable_step, reachable_step, reachable_empty.
Qed.

Lemma reachable_initialized : reachable initialized.
Proof.
  unfold initialized. apply reachable_step, reachable_empty.
Qed.

Lemma alice_booked_lookup :
  alice_booked !! slotKey "Doctor1" "20250728" "0900"
  = Some (booked_by "Alice" (newItem "Doctor1" "20250728" "0900")).
Proof. vm_compute. reflexivity. Qed.

Lemma initialized_lookup :
  initialized !! slotKey "Doctor1" "20250728" "0900"
  = Some (newItem "Doctor1" "20250728" "0900").
Proof. vm_compute. reflexivity. Qed.

Lemma initialize_idempotent_witness :
  alice_booked !! slotKey "Doctor1" "20250728" "0900"
    = Some (booked_by "Alice" (newItem "Doctor1" "20250728" "0900"))
  ∧ (initializeTimeSlots no_faults alice_booked).2 !! slotKey "Doctor1" "20250728" "0900"
    = Some (booked_by "Alice" (newItem "Doctor1" "20250728" "0900"))
  ∧ (initializeTimeSlots no_faults (initializeTimeSlots no_faults alice_booked).2).2
    = (initializeTimeSlots no_faults alice_booked).2.
Proof.
  destruct (initialize_idempotent alice_booked no_faults) as [Hkeep Hsame].
  split_and!.
  - exact alice_booked_lookup.
  - exact (Hkeep _ _ alice_booked_lookup).
  - exact Hsame.
Defined.

Lemma name_present_iff_booked_witness :
  reachable alice_booked
  ∧ table_inv alice_booked
  ∧ table_inv (step alice_booked (OpCancel None "Doctor1" "20250728" "0900"))
  ∧ (∅ : Table) !! slotKey "Doctor1" "20250728" "0900" = None
  ∧ (initializeTimeSlots no_faults ∅).2 !! slotKey "Doctor1" "20250728" "0900"
    = Some (newItem "Doctor1" "20250728" "0900")
  ∧ (availability (newItem "Doctor1" "20250728" "0900") = Free
     ∧ booking_person_name (newItem "Doctor1" "20250728" "0900") = None)
  ∧ (∃ slot', (bookAppointment None (booking_of "Alice") initialized).2
                !! bookingKey (booking_of "Alice") = Some slot'
              ∧ availability slot' = Booked
              ∧ booking_person_name slot' = Some "Alice")
  ∧ (∃ slot', (cancelAppointment None "Doctor1" "20250728" "0900" alice_booked).2
                !! slotKey "Doctor1" "20250728" "0900" = Some slot'
              ∧ availability slot' = Free
              ∧ booking_person_name slot' = None).
Proof.
  destruct name_present_iff_booked as (Hreach & Hstep & Hinit & Hbook & Hcancel).
  pose proof (Hreach alice_booked reachable_alice_booked) as Hinv.
  assert (Hseeded : (initializeTimeSlots no_faults ∅).2 !! slotKey "Doctor1" "20250728" "0900"
                    = Some (newItem "Doctor1" "20250728" "0900"))
    by (vm_compute; reflexivity).
  split; [exact reachable_alice_booked |].
  split; [exact Hinv |].
  split; [exact (Hstep alice_booked _ Hinv) |].
  split; [reflexivity |].
  split; [exact Hseeded |].
  split; [exact (Hinit no_faults ∅ _ _ eq_refl Hseeded) |].
  split; [exact (Hbook initialized (booking_of "Alice") _ initialized_lookup eq_refl) |].
  exact (Hcancel alice_booked _ _ _ _ alice_booked_lookup eq_refl).
Defined.

Lemma book_cancel_round_trip_witness :
  table_inv initialized
  ∧ initialized !! slotKey "Doctor1" "20250728" "0900"
    = Some (newItem "Doctor1" "20250728" "0900")
  ∧ availability (newItem "Doctor1" "20250728" "0900") = Free
  ∧ (cancelAppointment None "Doctor1" "20250728" "0900"
       (bookAppointment None (booking_of "Alice") initialized).2).2 = initialized
  ∧ foldl (bookThenCancel "Doctor1" "20250728" "0900") initialized ["Alice"; "Bob"]
    = initialized.
Proof.
  pose proof (reachable_inv _ reachable_initialized) as Hinv.
  destruct (book_cancel_round_trip initialized "Doctor1" "20250728" "0900" _
              Hinv initialized_lookup eq_refl) as (Hcycle & _ & _ & Hcycles).
  split_and!.
  - exact Hinv.
  - exact initialized_lookup.
  - reflexivity.
  - exact (proj2 (proj2 (proj2 (proj2 (Hcycle "Alice"))))).
  - exact (Hcycles ["Alice"; "Bob"]).
Defined.

Lemma wf_example_catalogue : wf_table example_catalogue.
Proof.
  unfold example_catalogue, seed. apply wf_seed_fold.
  intros k slot Hk. cbn [snd] in Hk. by rewrite lookup_empty in Hk.
Qed.

Lemma getAvailability_filters_witness :
  wf_table example_catalogue ∧ "Carer1" ≠ "" ∧ "20250725" ≠ "" ∧ Js.truthy None = false
  ∧ (∃ result,
       getAvailability None {| q_carer_id := Some "Carer1"; q_date := Some "20250725" |}
         example_catalogue = Resolved result
       ∧ NoDup result
       ∧ ∀ slot, slot ∈ result ↔
                 example_catalogue !! keyOf slot = Some slot ∧ carer_id slot = "Carer1"
                 ∧ String.prefix "20250725" (date_time_slot slot) = true)
  ∧ (∃ result,
       getAvailability None {| q_carer_id := Some "Carer1"; q_date := None |}
         example_catalogue = Resolved result
       ∧ NoDup result
       ∧ ∀ slot, slot ∈ result ↔
                 example_catalogue !! keyOf slot = Some slot ∧ carer_id slot = "Carer1")
  ∧ (∃ result,
       getAvailability None {| q_carer_id := None; q_date := None |}
         example_catalogue = Resolved result
       ∧ NoDup result
       ∧ ∀ slot, slot ∈ result ↔ example_catalogue !! keyOf slot = Some slot).
Proof.
  destruct getAvailability_filters as (Hboth & Hcarer & Hall & _).
  assert (Hc : "Carer1" ≠ "") by discriminate.
  assert (Hd : "20250725" ≠ "") by discriminate.
  split_and!.
  - exact wf_example_catalogue.
  - exact Hc.
  - exact Hd.
  - reflexivity.
  - exact (Hboth example_catalogue "Carer1" "20250725" wf_example_catalogue Hc Hd).
  - exact (Hcarer example_catalogue "Carer1" None wf_example_catalogue Hc eq_refl).
  - exact (Hall example_catalogue None None wf_example_catalogue eq_refl eq_refl).
Defined.

Lemma date_without_carer_scans_everything_witness :
  ((None : option string) = None ∨ (None : option string) = Some "")
  ∧ getAvailability None {| q_carer_id := None; q_date := Some "20250725" |}
      example_catalogue = Resolved (items example_catalogue)
  ∧ length (items example_catalogue) = 8%nat
  ∧ newItem "Carer2" "20250726" "0930" ∈ items example_catalogue.
Proof.
  assert (Hoc : (None : option string) = None ∨ (None : option string) = Some "")
    by (left; reflexivity).
  destruct (date_without_carer_scans_everything example_catalogue None None "20250725" Hoc)
    as (_ & Hres & Hin & _).
  split_and!.
  - exact Hoc.
  - exact Hres.
  - vm_compute. reflexivity.
  - apply (Hin (keyOf (newItem "Carer2" "20250726" "0930"))).
    vm_compute. reflexivity.
Defined.

(** * Further properties of the client *)

(** ** One update, seen from the table *)

Lemma bookAppointment_table fault booking t :
  (bookAppointment fault booking t).2 =
    (sendUpdate fault
       {| upd_Key := bookingKey booking;
          upd_UpdateExpression :=
            [SET_availability Booked; SET_booking_person_name (req_person_name booking)];
          upd_Condition := Free |} t).2.
Proof. unfold bookAppointment, bookingKey, slotKey. by destruct (sendUpdate _ _ _). Qed.

Lemma cancelAppointment_table fault c d ts t :
  (cancelAppointment fault c d ts t).2 =
    (sendUpdate fault
       {| upd_Key := slotKey c d ts;
          upd_UpdateExpression := [SET_availability Free; REMOVE_booking_person_name];
          upd_Condition := Booked |} t).2.
Proof. unfold cancelAppointment, slotKey. by destruct (sendUpdate _ _ _). Qed.

(** Where a slot found after an update comes from. *)
Lemma sendUpdate_origin (fault : option JsError) (cmd : UpdateCommand) (t : Table)
  (k : string * string) (slot' : TimeSlot) :
  (sendUpdate fault cmd t).2 !! k = Some slot' →
  t !! k = Some slot'
  ∨ (k = upd_Key cmd
     ∧ ∃ slot, t !! k = Some slot
               ∧ slot' = apply_update (upd_UpdateExpression cmd) slot).
Proof.
  unfold sendUpdate. destruct fault; [by left |].
  destruct (t !! upd_Key cmd) as [slot|] eqn:E; [| by left].
  destruct (decide _); [| by left]. cbn [snd].
  destruct (decide (upd_Key cmd = k)) as [<-|Hne].
  - rewrite lookup_insert_eq. intros [= <-]. right. split; [done |]. by exists slot.
  - rewrite lookup_insert_ne by done. by left.
Qed.

(** What a slot present before an update becomes. *)
Lemma sendUpdate_keeps (fault : option JsError) (cmd : UpdateCommand) (t : Table)
  (k : string * string) (slot : TimeSlot) :
  t !! k = Some slot →
  (sendUpdate fault cmd t).2 !! k = Some slot
  ∨ (sendUpdate fault cmd t).2 !! k
    = Some (apply_update (upd_UpdateExpression cmd) slot).
Proof.
  intros Hk. unfold sendUpdate. destruct fault; [by left |].
  destruct (t !! upd_Key cmd) as [slot0|] eqn:E; [| by left].
  destruct (decide _); [| by left]. cbn [snd].
  destruct (decide (upd_Key cmd = k)) as [<-|Hne].
  - rewrite lookup_insert_eq. right. congruence.
  - rewrite lookup_insert_ne by done. by left.
Qed.

Lemma sendUpdate_frame (fault : option JsError) (cmd : UpdateCommand) (t : Table) :
  dom (sendUpdate fault cmd t).2 = dom t
  ∧ ∀ k, k ≠ upd_Key cmd → (sendUpdate fault cmd t).2 !! k = t !! k.
Proof.
  unfold sendUpdate. destruct fault; [done |].
  destruct (t !! upd_Key cmd) as [slot|] eqn:E; [| done].
  destruct (decide _); [| done]. cbn [snd]. split.
  - apply dom_insert_lookup_L. by eexists.
  - intros k Hne. by rewrite lookup_insert_ne.
Qed.

(** X1. A booking or a cancellation that does not report success, whether
    it resolves with [success = false] or rejects, has written nothing. *)
Theorem no_write_without_success :
  ∀ (fault : option JsError) (booking : BookingRequest) (c d ts : string) (t : Table),
    (succeeded (bookAppointment fault booking t).1 = false →
     (bookAppointment fault booking t).2 = t)
    ∧ (succeeded (cancelAppointment fault c d ts t).1 = false →
       (cancelAppointment fault c d ts t).2 = t).
Proof.
  intros fault booking c d ts t. split.
  - unfold bookAppointment, sendUpdate. destruct fault; [done |].
    destruct (t !! _) as [slot|]; [| done]. by destruct (decide _).
  - unfold cancelAppointment, sendUpdate. destruct fault; [done |].
    destruct (t !! _) as [slot|]; [| done]. by destruct (decide _).
Qed.

(** X2. A booking or a cancellation, whatever its outcome, neither creates
    nor deletes a slot, and leaves every slot other than the one it names as
    it was. *)
Theorem book_cancel_frame :
  ∀ (fault : option JsError) (booking : BookingRequest) (c d ts : string) (t : Table),
    dom (bookAppointment fault booking t).2 = dom t
    ∧ (∀ k, k ≠ bookingKey booking → (bookAppointment fault booking t).2 !! k = t !! k)
    ∧ dom (cancelAppointment fault c d ts t).2 = dom t
    ∧ (∀ k, k ≠ slotKey c d ts → (cancelAppointment fault c d ts t).2 !! k = t !! k).
Proof.
  intros fault booking c d ts t.
  rewrite bookAppointment_table, cancelAppointment_table.
  match goal with |- context [sendUpdate fault ?cmd t] =>
    destruct (sendUpdate_frame fault cmd t) as [Hdom Hother] end.
  split; [exact Hdom |]. split; [exact Hother |].
  match goal with |- context [sendUpdate fault ?cmd t] =>
    destruct (sendUpdate_frame fault cmd t) as [Hdom' Hother'] end.
  split; [exact Hdom' | exact Hother'].
Qed.

Lemma same_identity_refl slot : same_identity slot slot.
Proof. by unfold same_identity. Qed.

Lemma same_identity_trans a b c :
  same_identity a b → same_identity b c → same_identity a c.
Proof. unfold same_identity. intros (? & ? & ? & ?) (? & ? & ? & ?). split_and!; congruence. Qed.

Lemma step_persist (t : Table) (op : Op) (k : string * string) (slot : TimeSlot) :
  t !! k = Some slot →
  ∃ slot', step t op !! k = Some slot' ∧ same_identity slot' slot.
Proof.
  intros Hk. destruct op as [faults|fault booking|fault c d ts]; cbn [step].
  - exists slot. split; [| apply same_identity_refl].
    rewrite initializeTimeSlots_table. by apply seed_fold_keeps.
  - rewrite bookAppointment_table.
    match goal with |- context [sendUpdate fault ?cmd t] =>
      destruct (sendUpdate_keeps fault cmd t k slot Hk) as [H|H] end;
      rewrite H; eexists; (split; [reflexivity |]); by unfold same_identity.
  - rewrite cancelAppointment_table.
    match goal with |- context [sendUpdate fault ?cmd t] =>
      destruct (sendUpdate_keeps fault cmd t k slot Hk) as [H|H] end;
      rewrite H; eexists; (split; [reflexivity |]); by unfold same_identity.
Qed.

(** X3. No sequence of operations deletes a slot or changes what identifies
    it: a slot stored under a key is still stored under that key afterwards,
    with the same [carer_id], [date_time_slot], [date] and [time_slot]. *)
Theorem slots_persist :
  ∀ (ops : list Op) (t : Table) (k : string * string) (slot : TimeSlot),
    t !! k = Some slot →
    ∃ slot', foldl step t ops !! k = Some slot' ∧ same_identity slot' slot.
Proof.
  induction ops as [|op ops IH]; intros t k slot Hk.
  - exists slot. split; [done | apply same_identity_refl].
  - cbn [foldl]. destruct (step_persist t op k slot Hk) as (s1 & H1 & Hid1).
    destruct (IH _ _ _ H1) as (s2 & H2 & Hid2).
    exists s2. split; [done |]. by eapply same_identity_trans.
Qed.

(** X4. Once a Free slot is booked, a second booking of it is refused with
    the slot-unavailable result, writes nothing, and the slot stays Booked
    under the first name. *)
Theorem double_booking_refused :
  ∀ (t : Table) (first second : BookingRequest) (slot : TimeSlot),
    t !! bookingKey first = Some slot →
    availability slot = Free →
    bookingKey second = bookingKey first →
    let t1 := (bookAppointment None first t).2 in
    bookAppointment None second t1 = (Resolved SlotUnavailable, t1)
    ∧ t1 !! bookingKey first = Some (booked_by (req_person_name first) slot).
Proof.
  intros t first second slot Hk Hf Hsame t1.
  assert (Ht1 : t1 = <[bookingKey first := booked_by (req_person_name first) slot]> t).
  { unfold t1. by rewrite (bookAppointment_free t first slot). }
  assert (Hl : t1 !! bookingKey first = Some (booked_by (req_person_name first) slot)).
  { by rewrite Ht1, lookup_insert_eq. }
  split; [| done]. apply bookAppointment_not_free.
  intros slot'. rewrite Hsame, Hl. by intros [= <-].
Qed.

(** X5. A cancelled slot can be booked again: after the cancellation of a
    Booked slot, a booking of it under any name succeeds and the slot is
    Booked under the new name. *)
Theorem cancel_then_rebook :
  ∀ (t : Table) (c d ts name : string) (slot : TimeSlot),
    t !! slotKey c d ts = Some slot →
    availability slot = Booked →
    let t1 := (cancelAppointment None c d ts t).2 in
    let booking := {| req_carer_id := c; req_date := d; req_time_slot := ts;
                      req_person_name := name |} in
    succeeded (cancelAppointment None c d ts t).1 = true
    ∧ succeeded (bookAppointment None booking t1).1 = true
    ∧ (bookAppointment None booking t1).2 = <[slotKey c d ts := booked_by name slot]> t.
Proof.
  intros t c d ts name slot Hk Hb t1 booking.
  assert (Hkey : bookingKey booking = slotKey c d ts) by reflexivity.
  assert (Ht1 : t1 = <[slotKey c d ts := freed slot]> t).
  { unfold t1. by rewrite (cancelAppointment_booked t c d ts slot). }
  assert (Hl : t1 !! bookingKey booking = Some (freed slot)).
  { by rewrite Ht1, Hkey, lookup_insert_eq. }
  rewrite (cancelAppointment_booked t c d ts slot) by done.
  rewrite (bookAppointment_free t1 booking (freed slot) Hl eq_refl).
  split_and!; [done | done |]. cbn [snd]. rewrite Ht1, Hkey.
  by rewrite insert_insert_eq.
Qed.

(** X6. Cancelling twice: the second cancellation of a slot finds no booking,
    answers so, and writes nothing. *)
Theorem cancel_twice :
  ∀ (t : Table) (c d ts : string) (slot : TimeSlot),
    t !! slotKey c d ts = Some slot →
    availability slot = Booked →
    let t1 := (cancelAppointment None c d ts t).2 in
    cancelAppointment None c d ts t1 = (Resolved NoActiveBooking, t1)
    ∧ t1 !! slotKey c d ts = Some (freed slot).
Proof.
  intros t c d ts slot Hk Hb t1.
  assert (Ht1 : t1 = <[slotKey c d ts := freed slot]> t).
  { unfold t1. by rewrite (cancelAppointment_booked t c d ts slot). }
  assert (Hl : t1 !! slotKey c d ts = Some (freed slot)).
  { by rewrite Ht1, lookup_insert_eq. }
  split; [| done]. apply cancelAppointment_not_booked.
  intros slot'. rewrite Hl. by intros [= <-].
Qed.

(** ** The catalogue in the table *)

Lemma catalogue_slot_newItem c d ts :
  c ∈ carers → d ∈ dates → ts ∈ generateTimeSlots → catalogue_slot (newItem c d ts).
Proof. intros. by unfold catalogue_slot. Qed.

Lemma catalogue_slot_apply_action slot a :
  catalogue_slot slot → catalogue_slot (apply_action slot a).
Proof.
  unfold catalogue_slot. intros H.
  destruct a; cbn [apply_action carer_id date time_slot date_time_slot]; exact H.
Qed.

Lemma catalogue_slot_apply_update actions slot :
  catalogue_slot slot → catalogue_slot (apply_update actions slot).
Proof.
  unfold apply_update. revert slot.
  induction actions as [|a actions IH]; intros slot H; [exact H |].
  cbn [foldl]. apply IH. by apply catalogue_slot_apply_action.
Qed.

Lemma initializeTimeSlots_catalogue (t : Table) faults k slot :
  (∀ k slot, t !! k = Some slot → catalogue_slot slot) →
  (initializeTimeSlots faults t).2 !! k = Some slot → catalogue_slot slot.
Proof.
  intros IH Hk. rewrite initializeTimeSlots_table in Hk.
  apply seed_fold_origin in Hk as [Hk|(_ & Hin & _)]; [by eapply IH |].
  apply catalogue_elem in Hin as (c & d & ts & -> & Hc & Hd & Hts).
  by apply catalogue_slot_newItem.
Qed.

Lemma bookAppointment_catalogue (t : Table) fault booking k slot :
  (∀ k slot, t !! k = Some slot → catalogue_slot slot) →
  (bookAppointment fault booking t).2 !! k = Some slot → catalogue_slot slot.
Proof.
  intros IH Hk. rewrite bookAppointment_table in Hk.
  apply sendUpdate_origin in Hk as [Hk|(_ & slot0 & Hk & ->)]; [by eapply IH |].
  apply catalogue_slot_apply_update. by eapply IH.
Qed.

Lemma cancelAppointment_catalogue (t : Table) fault c d ts k slot :
  (∀ k slot, t !! k = Some slot → catalogue_slot slot) →
  (cancelAppointment fault c d ts t).2 !! k = Some slot → catalogue_slot slot.
Proof.
  intros IH Hk. rewrite cancelAppointment_table in Hk.
  apply sendUpdate_origin in Hk as [Hk|(_ & slot0 & Hk & ->)]; [by eapply IH |].
  apply catalogue_slot_apply_update. by eapply IH.
Qed.

Lemma step_catalogue (t : Table) (op : Op) :
  (∀ k slot, t !! k = Some slot → catalogue_slot slot) →
  ∀ k slot, step t op !! k = Some slot → catalogue_slot slot.
Proof.
  intros IH. destruct op as [faults|fault booking|fault c d ts]; cbn [step];
    intros k slot.
  - by apply initializeTimeSlots_catalogue.
  - by apply bookAppointment_catalogue.
  - by apply cancelAppointment_catalogue.
Qed.

Lemma reachable_catalogue (t : Table) :
  reachable t → ∀ k slot, t !! k = Some slot → catalogue_slot slot.
Proof.
  induction 1 as [|t op _ IH]; [| by apply step_catalogue].
  intros k slot Hk. by rewrite lookup_empty in Hk.
Qed.

(** X7. Only initialize creates slots, and only those of its catalogue: in
    every table the operations can reach, each stored slot is stored under
    its own key, its carer, date and time are those of the catalogue, and its
    [date_time_slot] is [date # time_slot]. *)
Theorem reachable_catalogue_closed :
  ∀ (t : Table), reachable t →
    ∀ k slot, t !! k = Some slot → k = keyOf slot ∧ catalogue_slot slot.
Proof.
  intros t Hr k slot Hk. split.
  - by apply (reachable_wf t Hr).
  - by apply (reachable_catalogue t Hr k).
Qed.

Lemma api_carers_not_seeded (c : string) :
  c ∈ api_carers → (c ∉ carers) ∧ (c ≠ "").
Proof.
  intros Hin. unfold api_carers in Hin.
  repeat (apply elem_of_cons in Hin as [-> | Hin]);
    [.. | by apply elem_of_nil in Hin];
    (split; [apply (bool_decide_unpack _); vm_compute; reflexivity | discriminate]).
Qed.

Lemma filter_none {A} (P : A → Prop) `{∀ x, Decision (P x)} (l : list A) :
  (∀ x, x ∈ l → ¬ P x) → filter P l = [].
Proof.
  intros Hnone. apply elem_of_nil_inv. intros x Hx.
  apply list_elem_of_filter in Hx as [HP Hin]. by eapply Hnone.
Qed.

(** X8. The carers that [/api/carers] lists are not the carers that
    initialize seeds: in every reachable table a listed carer has no slot, a
    query for it returns the empty list and any booking for it is refused. *)
Theorem listed_carers_have_no_slots :
  ∀ (t : Table) (c : string),
    reachable t → c ∈ api_carers →
    (∀ od, getAvailability None {| q_carer_id := Some c; q_date := od |} t = Resolved [])
    ∧ (∀ d ts name,
         bookAppointment None {| req_carer_id := c; req_date := d; req_time_slot := ts;
                                 req_person_name := name |} t
         = (Resolved SlotUnavailable, t)).
Proof.
  intros t c Hr Hc. destruct (api_carers_not_seeded c Hc) as [Hnot Hne].
  assert (Hnone : ∀ slot, slot ∈ items t → carer_id slot ≠ c).
  { intros slot Hin <-. apply elem_of_items in Hin as [k Hk].
    apply Hnot. by apply (reachable_catalogue t Hr k slot). }
  split.
  - intros od. unfold getAvailability. cbn [q_carer_id q_date].
    rewrite (truthy_Some c Hne).
    destruct (Js.truthy od); cbn [andb]; unfold sendQuery; f_equal;
      apply filter_none; intros slot Hin [Hcarer _]; by apply (Hnone slot).
  - intros d ts name. apply bookAppointment_not_free.
    intros slot Hk. exfalso. apply Hnot.
    pose proof (reachable_wf t Hr _ _ Hk) as Hkey.
    pose proof (reachable_catalogue t Hr _ _ Hk) as (Hcar & _).
    unfold bookingKey, slotKey, keyOf in Hkey. cbn in Hkey.
    injection Hkey as Hkc _. by rewrite Hkc.
Qed.

Lemma catalogue_length : length (catalogue carers dates generateTimeSlots) = 126%nat.
Proof. vm_compute. reflexivity. Qed.

(** X9. A run of initialize that the store does not disturb completes the
    catalogue: from any reachable table, one partly seeded or with bookings
    included, the table afterwards holds exactly the 126 keys of the
    catalogue. *)
Theorem initialize_completes_catalogue :
  ∀ (t : Table), reachable t →
    dom (initializeTimeSlots no_faults t).2
      = list_to_set (keyOf <$> catalogue carers dates generateTimeSlots)
    ∧ size (initializeTimeSlots no_faults t).2 = 126%nat.
Proof.
  intros t Hr.
  assert (Hdom : dom (initializeTimeSlots no_faults t).2
                 = list_to_set (keyOf <$> catalogue carers dates generateTimeSlots)).
  { apply set_eq. intros k.
    rewrite elem_of_dom, elem_of_list_to_set, list_elem_of_fmap. split.
    - intros [slot Hk].
      pose proof (reachable_step t (OpInitialize no_faults) Hr) as Hr'.
      pose proof (reachable_wf _ Hr' _ _ Hk) as Hkey.
      pose proof (reachable_catalogue _ Hr' _ _ Hk) as (Hc & Hd & Hts & Hdts).
      exists (newItem (carer_id slot) (date slot) (time_slot slot)). split.
      + rewrite Hkey. unfold keyOf. cbn. by rewrite Hdts.
      + apply catalogue_elem. by eexists _, _, _.
    - intros (item & -> & Hin). rewrite initializeTimeSlots_table.
      pose proof (seed_fold_covers (catalogue carers dates generateTimeSlots) ([], t))
        as Hcov.
      rewrite Forall_forall in Hcov. by apply Hcov. }
  split; [exact Hdom |].
  rewrite <- size_dom, Hdom, size_list_to_set by apply catalogue_keys_NoDup.
  rewrite length_fmap. apply catalogue_length.
Qed.

(** X10. The puts of initialize are sent together; in whatever order they
    reach the store, the table afterwards is the same as if they had arrived
    in the order of the loops. *)
Theorem initialize_order_independent :
  ∀ (faults : string * string → option JsError) (t : Table) (arrival : list TimeSlot),
    arrival ≡ₚ catalogue carers dates generateTimeSlots →
    (foldl (seedOne faults) ([], t) arrival).2 = (initializeTimeSlots faults t).2.
Proof.
  intros faults t arrival Hperm. rewrite initializeTimeSlots_table. symmetry.
  apply seed_fold_perm; [by symmetry | apply catalogue_keys_NoDup].
Qed.

(** ** The winner among concurrent bookings *)

Lemma bookAll_app (l1 l2 : list (option JsError * BookingRequest)) (t : Table) :
  bookAll (l1 ++ l2) t =
    ((bookAll l1 t).1 ++ (bookAll l2 (bookAll l1 t).2).1,
     (bookAll l2 (bookAll l1 t).2).2).
Proof.
  revert t. induction l1 as [|[fault booking] l1 IH]; intros t.
  { cbn. by destruct (bookAll l2 t). }
  rewrite <- app_comm_cons, !bookAll_cons, IH. reflexivity.
Qed.

Lemma bookAll_refused (calls : list (option JsError * BookingRequest)) (t : Table) :
  Forall (λ call, is_Some call.1) calls →
  (bookAll calls t).2 = t ∧ length (bookAll calls t).1 = length calls.
Proof.
  induction 1 as [|[fault booking] calls [e He] _ [IH1 IH2]]; [done |].
  cbn in He. subst fault. rewrite bookAll_cons. cbn [fst snd].
  destruct (bookAppointment_fault_outcome e booking t) as [_ Ht].
  rewrite Ht. split; [done |]. cbn. by rewrite IH2.
Qed.

(** X14. Among concurrent bookings of a Free slot, the first whose write the
    store does not refuse wins: it succeeds, and when all calls are over the
    slot is Booked under its name, whatever the later calls are. *)
Theorem first_answered_call_wins :
  ∀ (t : Table) (c d ts : string) (slot : TimeSlot)
    (refused later : list (option JsError * BookingRequest)) (winner : BookingRequest),
    t !! slotKey c d ts = Some slot →
    availability slot = Free →
    Forall (λ call, is_Some call.1) refused →
    same_slot c d ts winner →
    Forall (λ call, same_slot c d ts call.2) later →
    let calls := refused ++ (None, winner) :: later in
    (bookAll calls t).2 = <[slotKey c d ts := booked_by (req_person_name winner) slot]> t
    ∧ (bookAll calls t).1 !! length refused
      = Some (Resolved {| success := true; message := "Appointment booked successfully" |}).
Proof.
  intros t c d ts slot refused later winner Hk Hf Href Hw Hlater calls.
  unfold calls. rewrite bookAll_app.
  destruct (bookAll_refused refused t Href) as [Ht Hlen]. rewrite Ht.
  rewrite bookAll_cons. cbn [fst snd].
  pose proof (same_slot_key _ _ _ _ Hw) as Hkey.
  rewrite (bookAppointment_free t winner slot) by (by rewrite ?Hkey).
  cbn [fst snd]. rewrite Hkey. split.
  - apply (bookAll_not_free c d ts later _ Hlater).
    intros slot'. rewrite lookup_insert_eq. by intros [= <-].
  - rewrite lookup_app_r by lia. by rewrite Hlen, Nat.sub_diag.
Qed.

(** ** Queries after writes *)

Lemma prefix_append (p s : string) : String.prefix p (p +:+ s) = true.
Proof.
  induction p as [|a p IH]; [by destruct s |].
  change (String.prefix (String a p) (String a p +:+ s))
    with (if ascii_dec a a then String.prefix p (p +:+ s) else false).
  destruct (ascii_dec a a); [exact IH | done].
Qed.

Lemma booking_visible_in_query_aux (t : Table) (c d ts name : string) (slot : TimeSlot) :
  wf_table t → c ≠ "" → d ≠ "" →
  t !! slotKey c d ts = Some slot →
  availability slot = Free →
  ∃ result,
    getAvailability None {| q_carer_id := Some c; q_date := Some d |}
      (bookAppointment None {| req_carer_id := c; req_date := d; req_time_slot := ts;
                               req_person_name := name |} t).2 = Resolved result
    ∧ booked_by name slot ∈ result
    ∧ ∀ other, other ∈ result → keyOf other = slotKey c d ts →
               other = booked_by name slot.
Proof.
  intros Hwf Hc Hd Hk Hf.
  set (booking := {| req_carer_id := c; req_date := d; req_time_slot := ts;
                     req_person_name := name |}).
  assert (Hkey : slotKey c d ts = keyOf slot) by (by apply Hwf).
  assert (Hkey' : keyOf (booked_by name slot) = slotKey c d ts) by (by rewrite Hkey).
  rewrite (bookAppointment_free t booking slot Hk Hf). cbn [snd].
  change (bookingKey booking) with (slotKey c d ts).
  assert (Hwf1 : wf_table (<[slotKey c d ts := booked_by name slot]> t)).
  { rewrite <- Hkey'. by apply wf_table_insert. }
  eexists. split_and!.
  - unfold getAvailability. cbn [q_carer_id q_date].
    rewrite !truthy_Some by done. reflexivity.
  - apply list_elem_of_filter. split.
    + unfold key_condition. cbn. unfold slotKey, keyOf in Hkey.
      injection Hkey as <- <-. split; [done | apply prefix_append].
    + apply elem_of_items_wf; [done |]. by rewrite Hkey', lookup_insert_eq.
  - intros other Hin Hother. apply list_elem_of_filter in Hin as [_ Hin].
    apply elem_of_items_wf in Hin; [| done].
    rewrite Hother, lookup_insert_eq in Hin. by injection Hin as <-.
Qed.

(** X11. A booking is visible to the next query: after a successful booking
    on a table that stores each item under its own key, the query for that
    carer and date returns the slot as Booked under the given name, and
    returns nothing else for that key. *)
Theorem booking_visible_in_query :
  ∀ (t : Table) (c d ts name : string) (slot : TimeSlot),
    wf_table t → c ≠ "" → d ≠ "" →
    t !! slotKey c d ts = Some slot →
    availability slot = Free →
    let booking := {| req_carer_id := c; req_date := d; req_time_slot := ts;
                      req_person_name := name |} in
    ∃ result,
      getAvailability None {| q_carer_id := Some c; q_date := Some d |}
        (bookAppointment None booking t).2 = Resolved result
      ∧ booked_by name slot ∈ result
      ∧ ∀ other, other ∈ result → keyOf other = slotKey c d ts →
                 other = booked_by name slot.
Proof.
  intros t c d ts name slot Hwf Hc Hd Hk Hf booking.
  exact (booking_visible_in_query_aux t c d ts name slot Hwf Hc Hd Hk Hf).
Qed.

(** X12. The three shapes of query narrow one another: what the query by
    carer and date returns is among what the query by carer returns, which is
    among what the scan returns. *)
Theorem query_results_nested :
  ∀ (t : Table) (c d : string),
    c ≠ "" → d ≠ "" →
    ∃ both carer all,
      getAvailability None {| q_carer_id := Some c; q_date := Some d |} t = Resolved both
      ∧ getAvailability None {| q_carer_id := Some c; q_date := None |} t = Resolved carer
      ∧ getAvailability None {| q_carer_id := None; q_date := None |} t = Resolved all
      ∧ both ⊆ carer ∧ carer ⊆ all.
Proof.
  intros t c d Hc Hd. do 3 eexists. split_and!.
  - unfold getAvailability. cbn [q_carer_id q_date].
    rewrite !truthy_Some by done. reflexivity.
  - unfold getAvailability. cbn [q_carer_id q_date].
    rewrite truthy_Some by done. reflexivity.
  - reflexivity.
  - intros slot. rewrite !list_elem_of_filter. unfold key_condition. cbn. tauto.
  - intros slot. rewrite list_elem_of_filter. tauto.
Qed.

(** ** The time strings in general *)

Lemma timeString_table :
  forallb (λ h, forallb (λ m,
    (String.length (timeString h m) =? 4)%nat
    && match minutes_of_HHMM (timeString h m) with
       | Some v => (v =? h * 60 + m)%nat
       | None => false
       end)
    (seq 0 60)) (seq 0 24) = true.
Proof. vm_compute. reflexivity. Qed.

Lemma timeString_reads (h m : nat) :
  (h < 24)%nat → (m < 60)%nat →
  String.length (timeString h m) = 4%nat
  ∧ minutes_of_HHMM (timeString h m) = Some (h * 60 + m)%nat.
Proof.
  intros Hh Hm. pose proof timeString_table as Htab.
  rewrite forallb_forall in Htab.
  assert (Hinh : In h (seq 0 24)) by (apply in_seq; lia).
  assert (Hinm : In m (seq 0 60)) by (apply in_seq; lia).
  specialize (Htab h Hinh). rewrite forallb_forall in Htab.
  specialize (Htab m Hinm). apply andb_true_iff in Htab as [Hlen Hread].
  apply Nat.eqb_eq in Hlen. split; [exact Hlen |].
  destruct (minutes_of_HHMM (timeString h m)) as [v|]; [| discriminate].
  apply Nat.eqb_eq in Hread. by rewrite Hread.
Qed.

(** X13. The zero padding of the time strings works for every hour of the
    day and every minute, not only for those of the loops: the string has
    four characters, reads back as that time of day, and two different times
    never give the same string. *)
Theorem timeString_four_digits :
  ∀ (h m : nat), (h < 24)%nat → (m < 60)%nat →
    String.length (timeString h m) = 4%nat
    ∧ minutes_of_HHMM (timeString h m) = Some (h * 60 + m)%nat
    ∧ ∀ h' m', (h' < 24)%nat → (m' < 60)%nat →
               timeString h m = timeString h' m' → h = h' ∧ m = m'.
Proof.
  intros h m Hh Hm.
  destruct (timeString_reads h m Hh Hm) as [Hlen Hread].
  split; [exact Hlen |]. split; [exact Hread |].
  intros h' m' Hh' Hm' Heq.
  destruct (timeString_reads h' m' Hh' Hm') as [_ Hread'].
  rewrite Heq, Hread' in Hread. injection Hread as Hval. lia.
Qed.

(** ** The REST routes *)

Lemma truthy_JsString s : s ≠ "" → truthy_value (JsString s) = true.
Proof. intros Hs. cbn. apply String.eqb_neq in Hs. by rewrite Hs. Qed.

Lemma get_field_Some (args : gmap string JsValue) (field : string) (v : JsValue) :
  args !! field = Some v → get_field args field = v.
Proof. intros H. unfold get_field. by rewrite H. Qed.

Lemma api_book_strings (fault : option JsError) (req_body : gmap string JsValue)
  (t : Table) (c d ts name : string) :
  req_body !! "carer_id" = Some (JsString c) →
  req_body !! "date" = Some (JsString d) →
  req_body !! "time_slot" = Some (JsString ts) →
  req_body !! "person_name" = Some (JsString name) →
  c ≠ "" → d ≠ "" → ts ≠ "" → name ≠ "" →
  let booking := {| req_carer_id := c; req_date := d; req_time_slot := ts;
                    req_person_name := name |} in
  api_book fault req_body t =
    Some (match (bookAppointment fault booking t).1 with
          | Resolved result =>
              if success result
              then {| status := 200; body := BodyResult result |}
              else {| status := 400; body := BodyResult result |}
          | Rejected error => {| status := 500; body := BodyError (err_message error) |}
          end, (bookAppointment fault booking t).2).
Proof.
  intros Hc Hd Hts Hn Hc' Hd' Hts' Hn' booking.
  unfold api_book.
  rewrite (get_field_Some _ _ _ Hc), (get_field_Some _ _ _ Hd),
    (get_field_Some _ _ _ Hts), (get_field_Some _ _ _ Hn).
  rewrite !truthy_JsString by done. cbn [negb orb].
  fold booking. by destruct (bookAppointment fault booking t).
Qed.

Lemma api_cancel_strings (fault : option JsError) (req_body : gmap string JsValue)
  (t : Table) (c d ts : string) :
  req_body !! "carer_id" = Some (JsString c) →
  req_body !! "date" = Some (JsString d) →
  req_body !! "time_slot" = Some (JsString ts) →
  c ≠ "" → d ≠ "" → ts ≠ "" →
  api_cancel fault req_body t =
    Some (match (cancelAppointment fault c d ts t).1 with
          | Resolved result =>
              if success result
              then {| status := 200; body := BodyResult result |}
              else {| status := 400; body := BodyResult result |}
          | Rejected error => {| status := 500; body := BodyError (err_message error) |}
          end, (cancelAppointment fault c d ts t).2).
Proof.
  intros Hc Hd Hts Hc' Hd' Hts'.
  unfold api_cancel.
  rewrite (get_field_Some _ _ _ Hc), (get_field_Some _ _ _ Hd),
    (get_field_Some _ _ _ Hts).
  rewrite !truthy_JsString by done. cbn [negb orb].
  by destruct (cancelAppointment fault c d ts t).
Qed.

(** X15. [POST /api/book] with four non-empty strings answers 200 and books
    when the slot is Free; 400 with the slot-unavailable result, writing
    nothing, when the slot is absent or not Free; 500 with the message of the
    error, writing nothing, when the store fails otherwise. *)
Theorem api_book_outcomes :
  ∀ (req_body : gmap string JsValue) (t : Table) (c d ts name : string),
    req_body !! "carer_id" = Some (JsString c) →
    req_body !! "date" = Some (JsString d) →
    req_body !! "time_slot" = Some (JsString ts) →
    req_body !! "person_name" = Some (JsString name) →
    c ≠ "" → d ≠ "" → ts ≠ "" → name ≠ "" →
    (∀ slot, t !! slotKey c d ts = Some slot → availability slot = Free →
       api_book None req_body t =
         Some ({| status := 200;
                  body := BodyResult {| success := true;
                                        message := "Appointment booked successfully" |} |},
               <[slotKey c d ts := booked_by name slot]> t))
    ∧ ((∀ slot, t !! slotKey c d ts = Some slot → availability slot ≠ Free) →
       api_book None req_body t =
         Some ({| status := 400; body := BodyResult SlotUnavailable |}, t))
    ∧ (∀ e, err_name e ≠ "ConditionalCheckFailedException" →
         api_book (Some e) req_body t =
           Some ({| status := 500; body := BodyError (err_message e) |}, t)).
Proof.
  intros req_body t c d ts name Hc Hd Hts Hn Hc' Hd' Hts' Hn'.
  set (booking := {| req_carer_id := c; req_date := d; req_time_slot := ts;
                     req_person_name := name |}).
  assert (Hkey : bookingKey booking = slotKey c d ts) by reflexivity.
  split_and!.
  - intros slot Hk Hf.
    rewrite (api_book_strings None req_body t c d ts name) by done. fold booking.
    by rewrite (bookAppointment_free t booking slot) by (by rewrite ?Hkey).
  - intros Hnf.
    rewrite (api_book_strings None req_body t c d ts name) by done. fold booking.
    by rewrite (bookAppointment_not_free t booking) by (by rewrite ?Hkey).
  - intros e He.
    rewrite (api_book_strings (Some e) req_body t c d ts name) by done.
    rewrite bookAppointment_fault. apply String.eqb_neq in He. by rewrite He.
Qed.

Lemma api_cancel_rejects (fault : option JsError) (req_body : gmap string JsValue)
  (t : Table) (field : string) :
  field ∈ ["carer_id"; "date"; "time_slot"] →
  req_body !! field = None ∨ req_body !! field = Some (JsString "") →
  api_cancel fault req_body t =
    Some ({| status := 400;
             body := BodyError "Missing required fields: carer_id, date, time_slot" |}, t).
Proof.
  intros Hin Hfield.
  assert (Hfalsy : truthy_value (get_field req_body field) = false).
  { unfold get_field. by destruct Hfield as [-> | ->]. }
  unfold api_cancel.
  repeat (apply elem_of_cons in Hin as [-> | Hin]);
    [rewrite Hfalsy; cbn [negb orb]; rewrite ?orb_true_r; reflexivity .. |].
  by apply elem_of_nil in Hin.
Qed.

(** X16. [DELETE /api/cancel]: a request in which a field is missing or
    empty is answered 400 without a command to the store; with three
    non-empty strings it answers 200 and frees a Booked slot, 400 with the
    no-booking result when the slot is absent or not Booked, 500 with the
    message of the error when the store fails otherwise; only the first of
    the four writes. *)
Theorem api_cancel_outcomes :
  ∀ (req_body : gmap string JsValue) (t : Table) (c d ts : string),
    (∀ fault field,
       field ∈ ["carer_id"; "date"; "time_slot"] →
       req_body !! field = None ∨ req_body !! field = Some (JsString "") →
       api_cancel fault req_body t =
         Some ({| status := 400;
                  body := BodyError "Missing required fields: carer_id, date, time_slot" |},
               t))
    ∧ (req_body !! "carer_id" = Some (JsString c) →
       req_body !! "date" = Some (JsString d) →
       req_body !! "time_slot" = Some (JsString ts) →
       c ≠ "" → d ≠ "" → ts ≠ "" →
       (∀ slot, t !! slotKey c d ts = Some slot → availability slot = Booked →
          api_cancel None req_body t =
            Some ({| status := 200;
                     body := BodyResult
                       {| success := true;
                          message := "Appointment cancelled successfully" |} |},
                  <[slotKey c d ts := freed slot]> t))
       ∧ ((∀ slot, t !! slotKey c d ts = Some slot → availability slot ≠ Booked) →
          api_cancel None req_body t =
            Some ({| status := 400; body := BodyResult NoActiveBooking |}, t))
       ∧ (∀ e, err_name e ≠ "ConditionalCheckFailedException" →
            api_cancel (Some e) req_body t =
              Some ({| status := 500; body := BodyError (err_message e) |}, t))).
Proof.
  intros req_body t c d ts. split.
  { intros fault field. apply api_cancel_rejects. }
  intros Hc Hd Hts Hc' Hd' Hts'. split_and!.
  - intros slot Hk Hb. rewrite (api_cancel_strings None req_body t c d ts) by done.
    by rewrite (cancelAppointment_booked t c d ts slot).
  - intros Hnb. rewrite (api_cancel_strings None req_body t c d ts) by done.
    by rewrite (cancelAppointment_not_booked t c d ts).
  - intros e He. rewrite (api_cancel_strings (Some e) req_body t c d ts) by done.
    rewrite cancelAppointment_fault. apply String.eqb_neq in He. by rewrite He.
Qed.

(** ** The tools *)

Lemma field_check (args : gmap string JsValue) (field : string) :
  negb (has_field args field)
  || negb (String.eqb (typeof (get_field args field)) "string") = false
  ↔ string_field args field.
Proof.
  unfold has_field, get_field, string_field.
  destruct (args !! field) as [v|] eqn:E.
  - rewrite bool_decide_eq_true_2 by (by eexists). cbn [negb orb default].
    destruct v; cbn; split; try done; try (by intros [? [=]]).
    by eexists.
  - rewrite bool_decide_eq_false_2 by (by intros [? ?]). cbn.
    split; [done | by intros [? ?]].
Qed.

Lemma first_invalid_field_None (fields : list string) (args : gmap string JsValue) :
  first_invalid_field fields args = None ↔ Forall (string_field args) fields.
Proof.
  induction fields as [|f fields IH]; cbn [first_invalid_field].
  { split; [constructor | done]. }
  rewrite Forall_cons, <- IH, <- field_check.
  destruct (negb (has_field args f) || _); split; try done; by intros [? ?].
Qed.

Lemma first_invalid_field_Some (fields : list string) (args : gmap string JsValue)
  (f : string) :
  first_invalid_field fields args = Some f →
  ∃ before after, fields = before ++ f :: after
                  ∧ Forall (string_field args) before
                  ∧ ¬ string_field args f.
Proof.
  induction fields as [|g fields IH]; cbn [first_invalid_field]; [done |].
  destruct (negb (has_field args g) || _) eqn:E.
  - intros [= <-]. exists [], fields. split_and!; [done | constructor |].
    rewrite <- field_check. by rewrite E.
  - intros Hf. destruct (IH Hf) as (before & after & -> & Hb & Hn).
    exists (g :: before), after. split_and!; [done | | done].
    constructor; [| done]. by apply field_check.
Qed.

(** X17. The validation of the tools [book_appointment] and
    [cancel_appointment]: the request passes exactly when every required
    field is present and is a string; otherwise the tool answers with
    [isError], names the first required field that is missing or not a string,
    and sends nothing to the store. *)
Theorem tool_validation :
  ∀ (args : gmap string JsValue),
    (∀ fields, first_invalid_field fields args = None
               ↔ Forall (string_field args) fields)
    ∧ (∀ fields f, first_invalid_field fields args = Some f →
         ∃ before after, fields = before ++ f :: after
                         ∧ Forall (string_field args) before
                         ∧ ¬ string_field args f)
    ∧ (∀ fault t f,
         first_invalid_field ["carer_id"; "date"; "time_slot"; "person_name"] args = Some f →
         callTool_book_appointment fault (Some args) t
         = (ToolIsError ("Missing or invalid required field: " +:+ f), t))
    ∧ (∀ fault t f,
         first_invalid_field ["carer_id"; "date"; "time_slot"] args = Some f →
         callTool_cancel_appointment fault (Some args) t
         = (ToolIsError ("Missing or invalid required field: " +:+ f), t)).
Proof.
  intros args. split_and!.
  - intros fields. apply first_invalid_field_None.
  - intros fields f. apply first_invalid_field_Some.
  - intros fault t f Hf. unfold callTool_book_appointment. by rewrite Hf.
  - intros fault t f Hf. unfold callTool_cancel_appointment. by rewrite Hf.
Qed.

Lemma callTool_cancel_appointment_strings (fault : option JsError)
  (args : gmap string JsValue) (t : Table) (c d ts : string) :
  args !! "carer_id" = Some (JsString c) →
  args !! "date" = Some (JsString d) →
  args !! "time_slot" = Some (JsString ts) →
  callTool_cancel_appointment fault (Some args) t =
    (match (cancelAppointment fault c d ts t).1 with
     | Resolved cancelResult => ToolText cancelResult
     | Rejected error => ToolIsError (err_message error)
     end, (cancelAppointment fault c d ts t).2).
Proof.
  intros Hc Hd Hts.
  assert (Hvalid : first_invalid_field ["carer_id"; "date"; "time_slot"] args = None).
  { apply first_invalid_field_None. repeat constructor; by eexists. }
  unfold callTool_cancel_appointment. rewrite Hvalid.
  rewrite (get_field_Some _ _ _ Hc), (get_field_Some _ _ _ Hd),
    (get_field_Some _ _ _ Hts). cbn [as_string].
  by destruct (cancelAppointment fault c d ts t).
Qed.

(** X18. The tools answer a refused transition as an ordinary result, not as
    an error: with string fields that form a key the store accepts, a booking
    of a slot that is absent or not Free, and a cancellation of a slot that is
    absent or not Booked, give the [success = false] result without [isError]
    and write nothing; an error of the store gives [isError] with the message
    of the error, and so does a key that the store does not accept, such as
    an empty [carer_id], which the check of the tool lets through. *)
Theorem tool_outcomes :
  ∀ (args : gmap string JsValue) (t : Table) (c d ts name : string),
    args !! "carer_id" = Some (JsString c) →
    args !! "date" = Some (JsString d) →
    args !! "time_slot" = Some (JsString ts) →
    (accepted_key (slotKey c d ts) →
     (∀ slot, t !! slotKey c d ts = Some slot → availability slot ≠ Booked) →
       callTool_cancel_appointment (key_fault (slotKey c d ts)) (Some args) t
       = (ToolText NoActiveBooking, t))
    ∧ (∀ e, err_name e ≠ "ConditionalCheckFailedException" →
         callTool_cancel_appointment (Some e) (Some args) t
         = (ToolIsError (err_message e), t))
    ∧ (¬ accepted_key (slotKey c d ts) →
       callTool_cancel_appointment (key_fault (slotKey c d ts)) (Some args) t
       = (ToolIsError (err_message ValidationException), t))
    ∧ (args !! "person_name" = Some (JsString name) →
       (accepted_key (slotKey c d ts) →
        (∀ slot, t !! slotKey c d ts = Some slot → availability slot ≠ Free) →
          callTool_book_appointment (key_fault (slotKey c d ts)) (Some args) t
          = (ToolText SlotUnavailable, t))
       ∧ (∀ e, err_name e ≠ "ConditionalCheckFailedException" →
            callTool_book_appointment (Some e) (Some args) t
            = (ToolIsError (err_message e), t))
       ∧ (¬ accepted_key (slotKey c d ts) →
          callTool_book_appointment (key_fault (slotKey c d ts)) (Some args) t
          = (ToolIsError (err_message ValidationException), t))).
Proof.
  intros args t c d ts name Hc Hd Hts.
  assert (Hcancel : ∀ e, err_name e ≠ "ConditionalCheckFailedException" →
            callTool_cancel_appointment (Some e) (Some args) t
            = (ToolIsError (err_message e), t)).
  { intros e He.
    rewrite (callTool_cancel_appointment_strings (Some e) args t c d ts) by done.
    rewrite cancelAppointment_fault. apply String.eqb_neq in He. by rewrite He. }
  split_and!.
  - intros Hkey Hnb. rewrite (key_fault_accepted _ Hkey).
    rewrite (callTool_cancel_appointment_strings None args t c d ts) by done.
    by rewrite (cancelAppointment_not_booked t c d ts).
  - exact Hcancel.
  - intros Hkey. rewrite (key_fault_refused _ Hkey). by apply Hcancel.
  - intros Hn.
    set (booking := {| req_carer_id := c; req_date := d; req_time_slot := ts;
                       req_person_name := name |}).
    assert (Hbook : ∀ e, err_name e ≠ "ConditionalCheckFailedException" →
              callTool_book_appointment (Some e) (Some args) t
              = (ToolIsError (err_message e), t)).
    { intros e He.
      rewrite (callTool_book_appointment_strings (Some e) args t c d ts name) by done.
      rewrite bookAppointment_fault. apply String.eqb_neq in He. by rewrite He. }
    split_and!.
    + intros Hkey Hnf. rewrite (key_fault_accepted _ Hkey).
      rewrite (callTool_book_appointment_strings None args t c d ts name) by done.
      fold booking. by rewrite (bookAppointment_not_free t booking).
    + exact Hbook.
    + intros Hkey. rewrite (key_fault_refused _ Hkey). by apply Hbook.
Qed.

(** X19. The route [POST /api/initialize] and the tool
    [initialize_time_slots] report success whatever the store answers to the
    puts: the 500 answer of the route and the [isError] answer of the tool
    cannot come from a failure of initialize. *)
Theorem initialize_handlers_always_succeed :
  ∀ (faults : string * string → option JsError) (t : Table),
    (api_initialize faults t).1
      = {| status := 200;
           body := BodyResult {| success := true;
                                 message := "Time slots initialized successfully" |} |}
    ∧ (callTool_initialize_time_slots faults t).1
      = inl "Time slots initialized successfully"
    ∧ (api_initialize faults t).2 = (initializeTimeSlots faults t).2
    ∧ (callTool_initialize_time_slots faults t).2 = (initializeTimeSlots faults t).2.
Proof.
  intros faults t. unfold api_initialize, callTool_initialize_time_slots.
  pose proof (initializeTimeSlots_never_rejects faults t) as Hres.
  destruct (initializeTimeSlots faults t) as [p t']. cbn [fst snd] in *.
  by rewrite Hres.
Qed.

(** ** From one route to the other *)

Lemma book_body_fields (c d ts name : string) :
  book_body c d ts name !! "carer_id" = Some (JsString c)
  ∧ book_body c d ts name !! "date" = Some (JsString d)
  ∧ book_body c d ts name !! "time_slot" = Some (JsString ts)
  ∧ book_body c d ts name !! "person_name" = Some (JsString name).
Proof. split_and!; vm_compute; reflexivity. Qed.

Lemma availability_query_fields (c d : string) :
  availability_query c d !! "carer_id" = Some c
  ∧ availability_query c d !! "date" = Some d.
Proof. split; vm_compute; reflexivity. Qed.

(** X20. What [POST /api/book] has booked, [GET /api/availability] shows: on
    a table storing each item under its own key, after the 200 answer to a
    booking, the query for the same carer and date answers 200 with the slot
    Booked under the name of the request. *)
Theorem api_booking_visible :
  ∀ (t : Table) (c d ts name : string) (slot : TimeSlot),
    wf_table t → c ≠ "" → d ≠ "" → ts ≠ "" → name ≠ "" →
    t !! slotKey c d ts = Some slot →
    availability slot = Free →
    ∃ t1 data,
      api_book None (book_body c d ts name) t =
        Some ({| status := 200;
                 body := BodyResult {| success := true;
                                       message := "Appointment booked successfully" |} |},
              t1)
      ∧ api_availability None (availability_query c d) t1
        = {| av_status := 200; av_body := BodyData data |}
      ∧ booked_by name slot ∈ data.
Proof.
  intros t c d ts name slot Hwf Hc Hd Hts Hn Hk Hf.
  destruct (book_body_fields c d ts name) as (Bc & Bd & Bts & Bn).
  destruct (availability_query_fields c d) as [Qc Qd].
  set (booking := {| req_carer_id := c; req_date := d; req_time_slot := ts;
                     req_person_name := name |}).
  destruct (booking_visible_in_query_aux t c d ts name slot Hwf Hc Hd Hk Hf)
    as (result & Hres & Hin & _).
  exists (bookAppointment None booking t).2, result. split_and!.
  - rewrite (api_book_strings None _ t c d ts name) by done. fold booking.
    by rewrite (bookAppointment_free t booking slot Hk Hf).
  - unfold api_availability. rewrite Qc, Qd. fold booking in Hres. by rewrite Hres.
  - done.
Qed.

(** ** Instances of the further properties *)

Lemma bob_refused :
  ∀ slot, alice_booked !! slotKey "Doctor1" "20250728" "0900" = Some slot →
          availability slot ≠ Free.
Proof. intros slot. rewrite alice_booked_lookup. by intros [= <-]. Qed.

Lemma no_write_without_success_witness :
  succeeded (bookAppointment None (booking_of "Bob") alice_booked).1 = false
  ∧ (bookAppointment None (booking_of "Bob") alice_booked).2 = alice_booked
  ∧ succeeded (cancelAppointment (Some throttled) "Doctor1" "20250728" "0900"
                 alice_booked).1 = false
  ∧ (cancelAppointment (Some throttled) "Doctor1" "20250728" "0900" alice_booked).2
    = alice_booked.
Proof.
  assert (H1 : succeeded (bookAppointment None (booking_of "Bob") alice_booked).1 = false).
  { by rewrite (bookAppointment_not_free alice_booked (booking_of "Bob") bob_refused). }
  assert (H2 : succeeded (cancelAppointment (Some throttled) "Doctor1" "20250728" "0900"
                            alice_booked).1 = false) by reflexivity.
  split; [exact H1 |].
  split; [exact (proj1 (no_write_without_success None (booking_of "Bob")
                          "Doctor1" "20250728" "0900" alice_booked) H1) |].
  split; [exact H2 |].
  exact (proj2 (no_write_without_success (Some throttled) (booking_of "Bob")
                  "Doctor1" "20250728" "0900" alice_booked) H2).
Defined.

Lemma book_cancel_frame_witness :
  slotKey "Doctor2" "20250729" "1000" ≠ bookingKey (booking_of "Alice")
  ∧ slotKey "Doctor2" "20250729" "1000" ≠ slotKey "Doctor1" "20250728" "0900"
  ∧ dom (bookAppointment None (booking_of "Alice") initialized).2 = dom initialized
  ∧ (bookAppointment None (booking_of "Alice") initialized).2
      !! slotKey "Doctor2" "20250729" "1000"
    = initialized !! slotKey "Doctor2" "20250729" "1000"
  ∧ dom (cancelAppointment None "Doctor1" "20250728" "0900" initialized).2
    = dom initialized
  ∧ (cancelAppointment None "Doctor1" "20250728" "0900" initialized).2
      !! slotKey "Doctor2" "20250729" "1000"
    = initialized !! slotKey "Doctor2" "20250729" "1000".
Proof.
  assert (H1 : slotKey "Doctor2" "20250729" "1000" ≠ bookingKey (booking_of "Alice"))
    by discriminate.
  assert (H2 : slotKey "Doctor2" "20250729" "1000" ≠ slotKey "Doctor1" "20250728" "0900")
    by discriminate.
  destruct (book_cancel_frame None (booking_of "Alice") "Doctor1" "20250728" "0900"
              initialized) as (Hd1 & Ho1 & Hd2 & Ho2).
  split; [exact H1 |]. split; [exact H2 |]. split; [exact Hd1 |].
  split; [exact (Ho1 _ H1) |]. split; [exact Hd2 | exact (Ho2 _ H2)].
Defined.

Lemma slots_persist_witness :
  alice_booked !! slotKey "Doctor1" "20250728" "0900"
    = Some (booked_by "Alice" (newItem "Doctor1" "20250728" "0900"))
  ∧ ∃ slot', foldl step alice_booked example_ops !! slotKey "Doctor1" "20250728" "0900"
               = Some slot'
             ∧ same_identity slot' (booked_by "Alice" (newItem "Doctor1" "20250728" "0900")).
Proof.
  split; [exact alice_booked_lookup |].
  exact (slots_persist example_ops alice_booked _ _ alice_booked_lookup).
Defined.

Lemma double_booking_refused_witness :
  initialized !! bookingKey (booking_of "Alice")
    = Some (newItem "Doctor1" "20250728" "0900")
  ∧ availability (newItem "Doctor1" "20250728" "0900") = Free
  ∧ bookingKey (booking_of "Bob") = bookingKey (booking_of "Alice")
  ∧ bookAppointment None (booking_of "Bob")
      (bookAppointment None (booking_of "Alice") initialized).2
    = (Resolved SlotUnavailable, (bookAppointment None (booking_of "Alice") initialized).2)
  ∧ (bookAppointment None (booking_of "Alice") initialized).2
      !! bookingKey (booking_of "Alice")
    = Some (booked_by "Alice" (newItem "Doctor1" "20250728" "0900")).
Proof.
  destruct (double_booking_refused initialized (booking_of "Alice") (booking_of "Bob")
              _ initialized_lookup eq_refl eq_refl) as [Hsecond Hstays].
  split; [exact initialized_lookup |]. split; [reflexivity |]. split; [reflexivity |].
  split; [exact Hsecond | exact Hstays].
Defined.

Lemma cancel_then_rebook_witness :
  alice_booked !! slotKey "Doctor1" "20250728" "0900"
    = Some (booked_by "Alice" (newItem "Doctor1" "20250728" "0900"))
  ∧ availability (booked_by "Alice" (newItem "Doctor1" "20250728" "0900")) = Booked
  ∧ succeeded (cancelAppointment None "Doctor1" "20250728" "0900" alice_booked).1 = true
  ∧ succeeded (bookAppointment None (booking_of "Bob")
                 (cancelAppointment None "Doctor1" "20250728" "0900" alice_booked).2).1
    = true
  ∧ (bookAppointment None (booking_of "Bob")
       (cancelAppointment None "Doctor1" "20250728" "0900" alice_booked).2).2
    = <[slotKey "Doctor1" "20250728" "0900" :=
          booked_by "Bob" (booked_by "Alice" (newItem "Doctor1" "20250728" "0900"))]>
        alice_booked.
Proof.
  destruct (cancel_then_rebook alice_booked "Doctor1" "20250728" "0900" "Bob"
              _ alice_booked_lookup eq_refl) as (Hc & Hb & Ht).
  split; [exact alice_booked_lookup |]. split; [reflexivity |].
  split; [exact Hc |]. split; [exact Hb | exact Ht].
Defined.

Lemma cancel_twice_witness :
  alice_booked !! slotKey "Doctor1" "20250728" "0900"
    = Some (booked_by "Alice" (newItem "Doctor1" "20250728" "0900"))
  ∧ availability (booked_by "Alice" (newItem "Doctor1" "20250728" "0900")) = Booked
  ∧ cancelAppointment None "Doctor1" "20250728" "0900"
      (cancelAppointment None "Doctor1" "20250728" "0900" alice_booked).2
    = (Resolved NoActiveBooking,
       (cancelAppointment None "Doctor1" "20250728" "0900" alice_booked).2)
  ∧ (cancelAppointment None "Doctor1" "20250728" "0900" alice_booked).2
      !! slotKey "Doctor1" "20250728" "0900"
    = Some (freed (booked_by "Alice" (newItem "Doctor1" "20250728" "0900"))).
Proof.
  destruct (cancel_twice alice_booked "Doctor1" "20250728" "0900"
              _ alice_booked_lookup eq_refl) as [Hsecond Hfree].
  split; [exact alice_booked_lookup |]. split; [reflexivity |].
  split; [exact Hsecond | exact Hfree].
Defined.

Lemma reachable_catalogue_closed_witness :
  reachable alice_booked
  ∧ alice_booked !! slotKey "Doctor1" "20250728" "0900"
    = Some (booked_by "Alice" (newItem "Doctor1" "20250728" "0900"))
  ∧ slotKey "Doctor1" "20250728" "0900"
    = keyOf (booked_by "Alice" (newItem "Doctor1" "20250728" "0900"))
  ∧ catalogue_slot (booked_by "Alice" (newItem "Doctor1" "20250728" "0900")).
Proof.
  destruct (reachable_catalogue_closed alice_booked reachable_alice_booked
              _ _ alice_booked_lookup) as [Hkey Hcat].
  split; [exact reachable_alice_booked |]. split; [exact alice_booked_lookup |].
  split; [exact Hkey | exact Hcat].
Defined.

Lemma listed_carers_have_no_slots_witness :
  reachable alice_booked
  ∧ "Carer1" ∈ api_carers
  ∧ getAvailability None {| q_carer_id := Some "Carer1"; q_date := Some "20250728" |}
      alice_booked = Resolved []
  ∧ bookAppointment None {| req_carer_id := "Carer1"; req_date := "20250728";
                            req_time_slot := "0900"; req_person_name := "Alice" |}
      alice_booked
    = (Resolved SlotUnavailable, alice_booked).
Proof.
  assert (Hin : "Carer1" ∈ api_carers) by (apply (bool_decide_unpack _); reflexivity).
  destruct (listed_carers_have_no_slots alice_booked "Carer1" reachable_alice_booked Hin)
    as [Hquery Hbook].
  split; [exact reachable_alice_booked |]. split; [exact Hin |].
  split; [exact (Hquery (Some "20250728")) | exact (Hbook "20250728" "0900" "Alice")].
Defined.

Lemma initialize_completes_catalogue_witness :
  reachable alice_booked
  ∧ dom (initializeTimeSlots no_faults alice_booked).2
    = list_to_set (keyOf <$> catalogue carers dates generateTimeSlots)
  ∧ size (initializeTimeSlots no_faults alice_booked).2 = 126%nat.
Proof.
  destruct (initialize_completes_catalogue alice_booked reachable_alice_booked)
    as [Hdom Hsize].
  split; [exact reachable_alice_booked |]. split; [exact Hdom | exact Hsize].
Defined.

Lemma initialize_order_independent_witness :
  reverse (catalogue carers dates generateTimeSlots)
    ≡ₚ catalogue carers dates generateTimeSlots
  ∧ (foldl (seedOne no_faults) ([], ∅)
       (reverse (catalogue carers dates generateTimeSlots))).2
    = (initializeTimeSlots no_faults ∅).2.
Proof.
  assert (Hperm : reverse (catalogue carers dates generateTimeSlots)
                  ≡ₚ catalogue carers dates generateTimeSlots)
    by (apply (bool_decide_unpack _); vm_compute; reflexivity).
  split; [exact Hperm |].
  exact (initialize_order_independent no_faults ∅ _ Hperm).
Defined.

Lemma wf_initialized : wf_table initialized.
Proof. exact (reachable_wf _ reachable_initialized). Qed.

Lemma booking_visible_in_query_witness :
  wf_table initialized ∧ "Doctor1" ≠ "" ∧ "20250728" ≠ ""
  ∧ initialized !! slotKey "Doctor1" "20250728" "0900"
    = Some (newItem "Doctor1" "20250728" "0900")
  ∧ availability (newItem "Doctor1" "20250728" "0900") = Free
  ∧ ∃ result,
      getAvailability None {| q_carer_id := Some "Doctor1"; q_date := Some "20250728" |}
        (bookAppointment None (booking_of "Alice") initialized).2 = Resolved result
      ∧ booked_by "Alice" (newItem "Doctor1" "20250728" "0900") ∈ result
      ∧ ∀ other, other ∈ result → keyOf other = slotKey "Doctor1" "20250728" "0900" →
                 other = booked_by "Alice" (newItem "Doctor1" "20250728" "0900").
Proof.
  assert (Hc : "Doctor1" ≠ "") by discriminate.
  assert (Hd : "20250728" ≠ "") by discriminate.
  split; [exact wf_initialized |]. split; [exact Hc |]. split; [exact Hd |].
  split; [exact initialized_lookup |]. split; [reflexivity |].
  exact (booking_visible_in_query initialized "Doctor1" "20250728" "0900" "Alice" _
           wf_initialized Hc Hd initialized_lookup eq_refl).
Defined.

Lemma query_results_nested_witness :
  "Carer1" ≠ "" ∧ "20250725" ≠ ""
  ∧ ∃ both carer all,
      getAvailability None {| q_carer_id := Some "Carer1"; q_date := Some "20250725" |}
        example_catalogue = Resolved both
      ∧ getAvailability None {| q_carer_id := Some "Carer1"; q_date := None |}
          example_catalogue = Resolved carer
      ∧ getAvailability None {| q_carer_id := None; q_date := None |}
          example_catalogue = Resolved all
      ∧ both ⊆ carer ∧ carer ⊆ all.
Proof.
  assert (Hc : "Carer1" ≠ "") by discriminate.
  assert (Hd : "20250725" ≠ "") by discriminate.
  split; [exact Hc |]. split; [exact Hd |].
  exact (query_results_nested example_catalogue "Carer1" "20250725" Hc Hd).
Defined.

Lemma timeString_four_digits_witness :
  (7 < 24)%nat ∧ (5 < 60)%nat
  ∧ String.length (timeString 7 5) = 4%nat
  ∧ minutes_of_HHMM (timeString 7 5) = Some (7 * 60 + 5)%nat
  ∧ ∀ h' m', (h' < 24)%nat → (m' < 60)%nat →
             timeString 7 5 = timeString h' m' → 7%nat = h' ∧ 5%nat = m'.
Proof.
  assert (Hh : (7 < 24)%nat) by lia.
  assert (Hm : (5 < 60)%nat) by lia.
  split; [exact Hh |]. split; [exact Hm |].
  exact (timeString_four_digits 7 5 Hh Hm).
Defined.

Lemma first_answered_call_wins_witness :
  initialized !! slotKey "Doctor1" "20250728" "0900"
    = Some (newItem "Doctor1" "20250728" "0900")
  ∧ availability (newItem "Doctor1" "20250728" "0900") = Free
  ∧ Forall (λ call, is_Some call.1) [(Some throttled, booking_of "Alice")]
  ∧ same_slot "Doctor1" "20250728" "0900" (booking_of "Bob")
  ∧ Forall (λ call, same_slot "Doctor1" "20250728" "0900" call.2)
      [(None : option JsError, booking_of "Carol")]
  ∧ (bookAll contended_calls initialized).2
    = <[slotKey "Doctor1" "20250728" "0900" :=
          booked_by "Bob" (newItem "Doctor1" "20250728" "0900")]> initialized
  ∧ (bookAll contended_calls initialized).1 !! 1%nat
    = Some (Resolved {| success := true; message := "Appointment booked successfully" |}).
Proof.
  assert (H1 : Forall (λ call : option JsError * BookingRequest, is_Some call.1)
                 [(Some throttled, booking_of "Alice")])
    by (repeat constructor; by eexists).
  assert (H2 : same_slot "Doctor1" "20250728" "0900" (booking_of "Bob"))
    by (repeat split).
  assert (H3 : Forall (λ call : option JsError * BookingRequest,
                         same_slot "Doctor1" "20250728" "0900" call.2)
                 [(None : option JsError, booking_of "Carol")])
    by (repeat constructor).
  destruct (first_answered_call_wins initialized "Doctor1" "20250728" "0900" _
              [(Some throttled, booking_of "Alice")] [(None : option JsError, booking_of "Carol")]
              (booking_of "Bob") initialized_lookup eq_refl H1 H2 H3) as [Ht Hw].
  split; [exact initialized_lookup |]. split; [reflexivity |]. split; [exact H1 |].
  split; [exact H2 |]. split; [exact H3 |]. split; [exact Ht | exact Hw].
Defined.

Lemma api_book_outcomes_witness :
  "Doctor1" ≠ "" ∧ "20250728" ≠ "" ∧ "0900" ≠ "" ∧ "Bob" ≠ ""
  ∧ initialized !! slotKey "Doctor1" "20250728" "0900"
    = Some (newItem "Doctor1" "20250728" "0900")
  ∧ api_book None (book_body "Doctor1" "20250728" "0900" "Bob") initialized
    = Some ({| status := 200;
               body := BodyResult {| success := true;
                                     message := "Appointment booked successfully" |} |},
            <[slotKey "Doctor1" "20250728" "0900" :=
                booked_by "Bob" (newItem "Doctor1" "20250728" "0900")]> initialized)
  ∧ api_book None (book_body "Doctor1" "20250728" "0900" "Bob") alice_booked
    = Some ({| status := 400; body := BodyResult SlotUnavailable |}, alice_booked)
  ∧ err_name throttled ≠ "ConditionalCheckFailedException"
  ∧ api_book (Some throttled) (book_body "Doctor1" "20250728" "0900" "Bob") initialized
    = Some ({| status := 500; body := BodyError (err_message throttled) |}, initialized).
Proof.
  assert (Hc : "Doctor1" ≠ "") by discriminate.
  assert (Hd : "20250728" ≠ "") by discriminate.
  assert (Hts : "0900" ≠ "") by discriminate.
  assert (Hn : "Bob" ≠ "") by discriminate.
  assert (He : err_name throttled ≠ "ConditionalCheckFailedException") by discriminate.
  destruct (book_body_fields "Doctor1" "20250728" "0900" "Bob") as (Bc & Bd & Bts & Bn).
  destruct (api_book_outcomes _ initialized _ _ _ _ Bc Bd Bts Bn Hc Hd Hts Hn)
    as (Hok & _ & Herr).
  destruct (api_book_outcomes _ alice_booked _ _ _ _ Bc Bd Bts Bn Hc Hd Hts Hn)
    as (_ & Hbusy & _).
  split; [exact Hc |]. split; [exact Hd |]. split; [exact Hts |]. split; [exact Hn |].
  split; [exact initialized_lookup |].
  split; [exact (Hok _ initialized_lookup eq_refl) |].
  split; [exact (Hbusy bob_refused) |].
  split; [exact He | exact (Herr throttled He)].
Defined.

Lemma cancel_body_fields (c d ts : string) :
  cancel_body c d ts !! "carer_id" = Some (JsString c)
  ∧ cancel_body c d ts !! "date" = Some (JsString d)
  ∧ cancel_body c d ts !! "time_slot" = Some (JsString ts).
Proof. split_and!; vm_compute; reflexivity. Qed.

Lemma nothing_to_cancel :
  ∀ slot, initialized !! slotKey "Doctor1" "20250728" "0900" = Some slot →
          availability slot ≠ Booked.
Proof. intros slot. rewrite initialized_lookup. by intros [= <-]. Qed.

Lemma api_cancel_outcomes_witness :
  "time_slot" ∈ ["carer_id"; "date"; "time_slot"]
  ∧ (cancel_body "Doctor1" "20250728" "" !! "time_slot" = None
     ∨ cancel_body "Doctor1" "20250728" "" !! "time_slot" = Some (JsString ""))
  ∧ api_cancel None (cancel_body "Doctor1" "20250728" "") alice_booked
    = Some ({| status := 400;
               body := BodyError "Missing required fields: carer_id, date, time_slot" |},
            alice_booked)
  ∧ "Doctor1" ≠ "" ∧ "20250728" ≠ "" ∧ "0900" ≠ ""
  ∧ api_cancel None (cancel_body "Doctor1" "20250728" "0900") alice_booked
    = Some ({| status := 200;
               body := BodyResult {| success := true;
                                     message := "Appointment cancelled successfully" |} |},
            <[slotKey "Doctor1" "20250728" "0900" :=
                freed (booked_by "Alice" (newItem "Doctor1" "20250728" "0900"))]>
              alice_booked)
  ∧ api_cancel None (cancel_body "Doctor1" "20250728" "0900") initialized
    = Some ({| status := 400; body := BodyResult NoActiveBooking |}, initialized)
  ∧ err_name throttled ≠ "ConditionalCheckFailedException"
  ∧ api_cancel (Some throttled) (cancel_body "Doctor1" "20250728" "0900") alice_booked
    = Some ({| status := 500; body := BodyError (err_message throttled) |}, alice_booked).
Proof.
  assert (Hin : "time_slot" ∈ ["carer_id"; "date"; "time_slot"])
    by (apply (bool_decide_unpack _); reflexivity).
  assert (Hempty : cancel_body "Doctor1" "20250728" "" !! "time_slot" = None
                   ∨ cancel_body "Doctor1" "20250728" "" !! "time_slot"
                     = Some (JsString ""))
    by (right; vm_compute; reflexivity).
  assert (Hc : "Doctor1" ≠ "") by discriminate.
  assert (Hd : "20250728" ≠ "") by discriminate.
  assert (Hts : "0900" ≠ "") by discriminate.
  assert (He : err_name throttled ≠ "ConditionalCheckFailedException") by discriminate.
  destruct (cancel_body_fields "Doctor1" "20250728" "0900") as (Bc & Bd & Bts).
  destruct (api_cancel_outcomes (cancel_body "Doctor1" "20250728" "") alice_booked
              "Doctor1" "20250728" "") as [Hrej _].
  destruct (api_cancel_outcomes (cancel_body "Doctor1" "20250728" "0900") alice_booked
              "Doctor1" "20250728" "0900") as [_ Hab].
  destruct (Hab Bc Bd Bts Hc Hd Hts) as (Hok & _ & Herr).
  destruct (api_cancel_outcomes (cancel_body "Doctor1" "20250728" "0900") initialized
              "Doctor1" "20250728" "0900") as [_ Hin0].
  destruct (Hin0 Bc Bd Bts Hc Hd Hts) as (_ & Hnone & _).
  split; [exact Hin |]. split; [exact Hempty |].
  split; [exact (Hrej None "time_slot" Hin Hempty) |].
  split; [exact Hc |]. split; [exact Hd |]. split; [exact Hts |].
  split; [exact (Hok _ alice_booked_lookup eq_refl) |].
  split; [exact (Hnone nothing_to_cancel) |].
  split; [exact He | exact (Herr throttled He)].
Defined.

Lemma invalid_args_first :
  first_invalid_field ["carer_id"; "date"; "time_slot"; "person_name"] invalid_args
  = Some "date".
Proof. vm_compute. reflexivity. Qed.

Lemma invalid_args_first_cancel :
  first_invalid_field ["carer_id"; "date"; "time_slot"] invalid_args = Some "date".
Proof. vm_compute. reflexivity. Qed.

Lemma tool_validation_witness :
  first_invalid_field ["carer_id"; "date"; "time_slot"; "person_name"] invalid_args
    = Some "date"
  ∧ first_invalid_field ["carer_id"; "date"; "time_slot"] invalid_args = Some "date"
  ∧ (∃ before after,
       ["carer_id"; "date"; "time_slot"; "person_name"] = before ++ "date" :: after
       ∧ Forall (string_field invalid_args) before
       ∧ ¬ string_field invalid_args "date")
  ∧ callTool_book_appointment None (Some invalid_args) initialized
    = (ToolIsError ("Missing or invalid required field: " +:+ "date"), initialized)
  ∧ callTool_cancel_appointment None (Some invalid_args) alice_booked
    = (ToolIsError ("Missing or invalid required field: " +:+ "date"), alice_booked)
  ∧ (first_invalid_field ["carer_id"; "person_name"] invalid_args = None
     ↔ Forall (string_field invalid_args) ["carer_id"; "person_name"]).
Proof.
  destruct (tool_validation invalid_args) as (Hnone & Hsome & Hbook & Hcancel).
  split; [exact invalid_args_first |]. split; [exact invalid_args_first_cancel |].
  split; [exact (Hsome _ _ invalid_args_first) |].
  split; [exact (Hbook None initialized _ invalid_args_first) |].
  split; [exact (Hcancel None alice_booked _ invalid_args_first_cancel) |].
  exact (Hnone ["carer_id"; "person_name"]).
Defined.

Lemma tool_outcomes_witness :
  book_body "Doctor1" "20250728" "0900" "Bob" !! "carer_id" = Some (JsString "Doctor1")
  ∧ book_body "Doctor1" "20250728" "0900" "Bob" !! "date" = Some (JsString "20250728")
  ∧ book_body "Doctor1" "20250728" "0900" "Bob" !! "time_slot" = Some (JsString "0900")
  ∧ book_body "Doctor1" "20250728" "0900" "Bob" !! "person_name" = Some (JsString "Bob")
  ∧ accepted_key (slotKey "Doctor1" "20250728" "0900")
  ∧ err_name throttled ≠ "ConditionalCheckFailedException"
  ∧ callTool_cancel_appointment (key_fault (slotKey "Doctor1" "20250728" "0900"))
      (Some (book_body "Doctor1" "20250728" "0900" "Bob")) initialized
    = (ToolText NoActiveBooking, initialized)
  ∧ callTool_cancel_appointment (Some throttled)
      (Some (book_body "Doctor1" "20250728" "0900" "Bob")) initialized
    = (ToolIsError (err_message throttled), initialized)
  ∧ callTool_book_appointment (key_fault (slotKey "Doctor1" "20250728" "0900"))
      (Some (book_body "Doctor1" "20250728" "0900" "Bob")) alice_booked
    = (ToolText SlotUnavailable, alice_booked)
  ∧ callTool_book_appointment (Some throttled)
      (Some (book_body "Doctor1" "20250728" "0900" "Bob")) alice_booked
    = (ToolIsError (err_message throttled), alice_booked)
  ∧ ¬ accepted_key (slotKey "" "20250728" "0900")
  ∧ callTool_cancel_appointment (key_fault (slotKey "" "20250728" "0900"))
      (Some (book_body "" "20250728" "0900" "Bob")) alice_booked
    = (ToolIsError (err_message ValidationException), alice_booked)
  ∧ callTool_book_appointment (key_fault (slotKey "" "20250728" "0900"))
      (Some (book_body "" "20250728" "0900" "Bob")) alice_booked
    = (ToolIsError (err_message ValidationException), alice_booked).
Proof.
  assert (He : err_name throttled ≠ "ConditionalCheckFailedException") by discriminate.
  assert (K1 : accepted_key (slotKey "Doctor1" "20250728" "0900"))
    by (apply (bool_decide_unpack _); vm_compute; reflexivity).
  assert (K2 : ¬ accepted_key (slotKey "" "20250728" "0900"))
    by (apply (bool_decide_unpack _); vm_compute; reflexivity).
  destruct (book_body_fields "Doctor1" "20250728" "0900" "Bob") as (Bc & Bd & Bts & Bn).
  destruct (book_body_fields "" "20250728" "0900" "Bob") as (Ec & Ed & Ets & En).
  destruct (tool_outcomes (book_body "Doctor1" "20250728" "0900" "Bob") initialized
              "Doctor1" "20250728" "0900" "Bob" Bc Bd Bts) as (Hc1 & Hc2 & _ & _).
  destruct (tool_outcomes (book_body "Doctor1" "20250728" "0900" "Bob") alice_booked
              "Doctor1" "20250728" "0900" "Bob" Bc Bd Bts) as (_ & _ & _ & Hb).
  destruct (Hb Bn) as (Hb1 & Hb2 & _).
  destruct (tool_outcomes (book_body "" "20250728" "0900" "Bob") alice_booked
              "" "20250728" "0900" "Bob" Ec Ed Ets) as (_ & _ & Hv1 & Hv).
  destruct (Hv En) as (_ & _ & Hv2).
  split; [exact Bc |]. split; [exact Bd |]. split; [exact Bts |]. split; [exact Bn |].
  split; [exact K1 |]. split; [exact He |].
  split; [exact (Hc1 K1 nothing_to_cancel) |].
  split; [exact (Hc2 throttled He) |]. split; [exact (Hb1 K1 bob_refused) |].
  split; [exact (Hb2 throttled He) |]. split; [exact K2 |].
  split; [exact (Hv1 K2) | exact (Hv2 K2)].
Defined.

Lemma api_booking_visible_witness :
  wf_table initialized
  ∧ "Doctor1" ≠ "" ∧ "20250728" ≠ "" ∧ "0900" ≠ "" ∧ "Alice" ≠ ""
  ∧ initialized !! slotKey "Doctor1" "20250728" "0900"
    = Some (newItem "Doctor1" "20250728" "0900")
  ∧ availability (newItem "Doctor1" "20250728" "0900") = Free
  ∧ ∃ t1 data,
      api_book None (book_body "Doctor1" "20250728" "0900" "Alice") initialized =
        Some ({| status := 200;
                 body := BodyResult {| success := true;
                                       message := "Appointment booked successfully" |} |},
              t1)
      ∧ api_availability None (availability_query "Doctor1" "20250728") t1
        = {| av_status := 200; av_body := BodyData data |}
      ∧ booked_by "Alice" (newItem "Doctor1" "20250728" "0900") ∈ data.
Proof.
  assert (Hc : "Doctor1" ≠ "") by discriminate.
  assert (Hd : "20250728" ≠ "") by discriminate.
  assert (Hts : "0900" ≠ "") by discriminate.
  assert (Hn : "Alice" ≠ "") by discriminate.
  split; [exact wf_initialized |]. split; [exact Hc |]. split; [exact Hd |].
  split; [exact Hts |]. split; [exact Hn |]. split; [exact initialized_lookup |].
  split; [reflexivity |].
  exact (api_booking_visible initialized "Doctor1" "20250728" "0900" "Alice" _
           wf_initialized Hc Hd Hts Hn initialized_lookup eq_refl).
Defined.
